(** * watertap-reflo: flowsheet orchestration, trough surrogate, PySAM sweep
      and wind costing

    A shallow embedding of the orchestration code of the repository:
    - [KBHDP]            analysis/case_studies/KBHDP/main.py
    - [TroughSurrogate]  solar_models/surrogate/trough/trough_surrogate.py
    - [PySAMTrough]      analysis/case_studies/permian/data/pysam_run_permian_trough.py
    - [WindCosting]      costing/solar/wind.py
    - [TornadoPlot]      permian/utils/permian_MD_sweep_plot_functions/RPT1_tornado_plot.py
                         (ZLD1_tornado_plot.py has the same function)

    The nonlinear solver, the modelling layer and the physical simulator are
    external collaborators.  They appear as section variables (oracles); the
    Python control flow around them is embedded as programs in a small
    state / exception / event-log monad.  Python floats are modelled by exact
    rationals, with the infinities and [nan] where the code computes with
    what a simulator returns. *)

From Stdlib Require Import ZArith QArith Qabs Qround Qminmax List SetoidList String Bool Lia Lqa.
From stdpp Require Import gmap strings list fin_maps.
Import ListNotations.

(** ** Exceptions and programs *)

(** The Python exceptions the embedded code raises itself, and [External]
    for whatever an external call raises. *)
Inductive exn : Type :=
| RuntimeError (msg : string)
| AssertionError
| InitializationError (msg : string)
| Exception (msg : string)
| ZeroDivisionError
| DegreesOfFreedomError (dof : Z)
| External (what : string).

Inductive outcome (A : Type) : Type :=
| Return (a : A)
| Raise (e : exn).
Arguments Return {A} a.
Arguments Raise {A} e.

Definition raised {A} (r : outcome A) : bool :=
  match r with Return _ => false | Raise _ => true end.

(** A program over a mutable state [S] that logs events of type [E]: it
    ends by returning or raising, and in both cases leaves a state and the
    events it emitted, oldest first. *)
Definition prog (S E A : Type) : Type := S -> outcome A * S * list E.

Section Prog.
Context {S E : Type}.

Definition ret {A} (a : A) : prog S E A := fun s => (Return a, s, []).

Definition bind {A B} (c : prog S E A) (k : A -> prog S E B) : prog S E B :=
  fun s =>
    match c s with
    | (Return a, s1, t1) =>
        match k a s1 with
        | (r, s2, t2) => (r, s2, t1 ++ t2)
        end
    | (Raise e, s1, t1) => (Raise e, s1, t1)
    end.

Definition raise {A} (e : exn) : prog S E A := fun s => (Raise e, s, []).
Definition emit (e : E) : prog S E unit := fun s => (Return tt, s, [e]).
Definition gets {A} (f : S -> A) : prog S E A := fun s => (Return (f s), s, []).
Definition modify (f : S -> S) : prog S E unit := fun s => (Return tt, f s, []).

Definition result_of {A} (x : outcome A * S * list E) : outcome A := fst (fst x).
Definition state_of {A} (x : outcome A * S * list E) : S := snd (fst x).
Definition trace_of {A} (x : outcome A * S * list E) : list E := snd x.
End Prog.

Declare Scope prog_scope.
Delimit Scope prog_scope with prog.
Notation "x <- c1 ;; c2" := (bind c1 (fun x => c2))
  (at level 100, c1 at next level, right associativity) : prog_scope.
Notation "c1 ;; c2" := (bind c1 (fun _ => c2))
  (at level 100, right associativity) : prog_scope.

(** Number of events of a trace that satisfy a boolean test. *)
Definition count_events {E} (p : E -> bool) (t : list E) : nat :=
  List.length (List.filter p t).

(** * KBHDP/main.py *)
Module KBHDP.

(** The unit blocks [build_system] puts on the flowsheet. *)
Inductive unit_block : Type :=
| feed | primary_pump | softener | MCAS_to_NaCl_translator
| UF | RO | product | disposal.

(** The arcs [add_connections] declares. *)
Inductive arc : Type :=
| feed_to_primary_pump | primary_pump_to_softener | softener_to_translator
| translator_to_UF | UF_to_ro_feed | ro_to_product | ro_to_disposal.

Definition source (a : arc) : unit_block :=
  match a with
  | feed_to_primary_pump => feed
  | primary_pump_to_softener => primary_pump
  | softener_to_translator => softener
  | translator_to_UF => MCAS_to_NaCl_translator
  | UF_to_ro_feed => UF
  | ro_to_product => RO
  | ro_to_disposal => RO
  end.

Definition destination (a : arc) : unit_block :=
  match a with
  | feed_to_primary_pump => primary_pump
  | primary_pump_to_softener => softener
  | softener_to_translator => MCAS_to_NaCl_translator
  | translator_to_UF => UF
  | UF_to_ro_feed => RO
  | ro_to_product => product
  | ro_to_disposal => disposal
  end.

Definition arcs : list arc :=
  [feed_to_primary_pump; primary_pump_to_softener; softener_to_translator;
   translator_to_UF; UF_to_ro_feed; ro_to_product; ro_to_disposal].

Definition unit_block_eqb (u v : unit_block) : bool :=
  match u, v with
  | feed, feed | primary_pump, primary_pump | softener, softener
  | MCAS_to_NaCl_translator, MCAS_to_NaCl_translator
  | UF, UF | RO, RO | product, product | disposal, disposal => true
  | _, _ => false
  end.

Definition arc_eqb (a b : arc) : bool :=
  match a, b with
  | feed_to_primary_pump, feed_to_primary_pump
  | primary_pump_to_softener, primary_pump_to_softener
  | softener_to_translator, softener_to_translator
  | translator_to_UF, translator_to_UF
  | UF_to_ro_feed, UF_to_ro_feed
  | ro_to_product, ro_to_product
  | ro_to_disposal, ro_to_disposal => true
  | _, _ => false
  end.

(** What a run of the script does that can be observed from outside. *)
Inductive event : Type :=
| Printed (line : string)
| PrintedDOF (dof : Z)
| BuiltSystem
| ExpandedArcs
| AddedConstraints
| SetOperatingConditions
| Initialized (u : unit_block)
| Propagated (a : arc)
| ReportedConc
| CheckedDOF (dof : Z)
| PrintedReport
| GlobalSolve
| InfeasibleBoundsPrinted
| CloseToBoundsPrinted
| DisplayedFlowTable.

Definition is_solve (e : event) : bool :=
  match e with GlobalSolve => true | _ => false end.

Definition is_initialized (e : event) : option unit_block :=
  match e with Initialized u => Some u | _ => None end.

(** The units a trace initialises, in the order it does. *)
Definition initialized_units (t : list event) : list unit_block :=
  omap is_initialized t.

(** The order in which [init_system] is written to visit the units. *)
Definition visiting_order : list unit_block :=
  [feed; primary_pump; softener; MCAS_to_NaCl_translator; UF; RO; product; disposal].

(** Position of a unit in the visiting order. *)
Definition visit_index (u : unit_block) : nat :=
  match u with
  | feed => 0 | primary_pump => 1 | softener => 2 | MCAS_to_NaCl_translator => 3
  | UF => 4 | RO => 5 | product => 6 | disposal => 7
  end.

(** [propagated_before_init seen t]: every [Initialized u] of [t] whose unit
    has an upstream arc comes after a [Propagated] of each such arc, [seen]
    being the arcs propagated before [t] starts. *)
Fixpoint propagated_before_init (seen : list arc) (t : list event) : bool :=
  match t with
  | [] => true
  | Propagated a :: t' => propagated_before_init (a :: seen) t'
  | Initialized u :: t' =>
      forallb (fun a => negb (unit_block_eqb (destination a) u)
                        || existsb (arc_eqb a) seen) arcs
      && propagated_before_init seen t'
  | _ :: t' => propagated_before_init seen t'
  end.

(** *** Inlet conditions *)

(** The part of the model [set_inlet_conditions] writes: the fixed values of
    [m.fs.feed.properties[0].flow_mass_phase_comp], keyed by (phase,
    component); the default scaling factors of [m.fs.MCAS_properties],
    keyed by variable name and index; and the fixed scalars. *)
Record inlet_state : Type := {
  flow_mass_phase_comp : gmap (string * string) Q;
  default_scaling : gmap (string * (string * string)) Q;
  pump_outlet_pressure : option Q;
  feed_pressure : option Q;
  feed_temperature : option Q;
  efficiency_pump : option Q;
  work_scaling_factor : option Q
}.

Definition initial_inlet_state : inlet_state :=
  {| flow_mass_phase_comp := ∅; default_scaling := ∅;
     pump_outlet_pressure := None; feed_pressure := None;
     feed_temperature := None; efficiency_pump := None;
     work_scaling_factor := None |}.

Definition with_flow (f : gmap (string * string) Q) (s : inlet_state) : inlet_state :=
  {| flow_mass_phase_comp := f; default_scaling := default_scaling s;
     pump_outlet_pressure := pump_outlet_pressure s; feed_pressure := feed_pressure s;
     feed_temperature := feed_temperature s; efficiency_pump := efficiency_pump s;
     work_scaling_factor := work_scaling_factor s |}.

Definition with_scaling (d : gmap (string * (string * string)) Q) (s : inlet_state)
  : inlet_state :=
  {| flow_mass_phase_comp := flow_mass_phase_comp s; default_scaling := d;
     pump_outlet_pressure := pump_outlet_pressure s; feed_pressure := feed_pressure s;
     feed_temperature := feed_temperature s; efficiency_pump := efficiency_pump s;
     work_scaling_factor := work_scaling_factor s |}.

Definition with_scalars (pp fp ft ep ws : option Q) (s : inlet_state) : inlet_state :=
  {| flow_mass_phase_comp := flow_mass_phase_comp s;
     default_scaling := default_scaling s;
     pump_outlet_pressure := pp; feed_pressure := fp;
     feed_temperature := ft; efficiency_pump := ep;
     work_scaling_factor := ws |}.

(** [solute_list] of the [MCASParameterBlock] in [build_system]. *)
Definition solute_set : list string :=
  ["Alkalinity_2-"; "Ca_2+"; "Cl_-"; "Mg_2+"; "K_+"; "SiO2"; "Na_+"; "SO2_-4+"]%string.

(** [inlet_dict] of [set_inlet_conditions], in kg/m3, in insertion order. *)
Definition inlet_dict : list (string * Q) :=
  [("Ca_2+"%string, 0.13); ("Mg_2+"%string, 0.03); ("Alkalinity_2-"%string, 0.08);
   ("SiO2"%string, 0.031); ("Cl_-"%string, 1.18); ("Na_+"%string, 0.77);
   ("K_+"%string, 0.016); ("SO2_-4+"%string, 0.23)]%Q.

Section Inlet.
Local Open Scope prog_scope.
Local Open Scope Q_scope.
Local Abbreviation P := (prog inlet_state event).

(** [flow_mass_phase_comp["Liq", j].fix(v)] *)
Definition fix_flow (j : string) (v : Q) : P unit :=
  modify (fun s => with_flow (<[("Liq"%string, j) := v]> (flow_mass_phase_comp s)) s).

(** [value(flow_mass_phase_comp["Liq", j])] *)
Definition value_flow (j : string) : P Q :=
  fun s =>
    match flow_mass_phase_comp s !! ("Liq"%string, j) with
    | Some v => (Return v, s, [])
    | None => (Raise (External "ValueError: no value"), s, [])
    end.

(** Python's float division. *)
Definition divide (a b : Q) : P Q :=
  if Qeq_bool b 0 then raise ZeroDivisionError else ret (a / b).

(** [m.fs.MCAS_properties.set_default_scaling(var, v, index=index)] *)
Definition set_default_scaling (var : string) (v : Q) (index : string * string) : P unit :=
  modify (fun s => with_scaling (<[(var, index) := v]> (default_scaling s)) s).

Fixpoint for_each {A} (l : list A) (body : A -> P unit) : P unit :=
  match l with
  | [] => ret tt
  | x :: l' => body x ;; for_each l' body
  end.

(** The body of the loop over [inlet_dict.items()]. *)
Definition set_solute (item : string * Q) : P unit :=
  let '(solute, solute_conc) := item in
  water <- value_flow "H2O" ;;
  fix_flow solute (water / 1000 * solute_conc) ;;
  v <- value_flow solute ;;
  sf <- divide 1 v ;;
  set_default_scaling "flow_mass_phase_comp" sf ("Liq"%string, solute).

Definition set_inlet_conditions
    (Qin Cin water_recovery : option Q) (primary_pump_pressure : Q) : P unit :=
  emit (Printed "=======> SETTING OPERATING CONDITIONS <=======") ;;
  match Qin with
  | None => fix_flow "H2O" 1
  | Some q => fix_flow "H2O" q
  end ;;
  for_each inlet_dict set_solute ;;
  water <- value_flow "H2O" ;;
  sf <- divide 1 water ;;
  set_default_scaling "flow_mass_phase_comp" sf ("Liq"%string, "H2O"%string) ;;
  let feed_temperature := 273.15 + 20 in
  let supply_pressure := 101325 in
  modify (with_scalars (Some primary_pump_pressure) (Some supply_pressure)
            (Some feed_temperature) (Some 0.85) (Some 0.001)) ;;
  emit ReportedConc.

(** [component_list] of the property package: the water and the solutes. *)
Definition component_list : list string := "H2O"%string :: solute_set.

(** Sum of the mass flows of all components of the feed, when each has a
    value. *)
Definition flow_mass_total (s : inlet_state) : option Q :=
  foldl (fun acc j => match acc, flow_mass_phase_comp s !! ("Liq"%string, j) with
                      | Some a, Some mj => Some (a + mj)
                      | _, _ => None
                      end) (Some 0) component_list.

(** [mass_frac_phase_comp["Liq", j]] and [conc_mass_phase_comp["Liq", j]] of
    the feed's state block.  These are not computed by the script: they are
    variables of the property package (watertap's multi-component aqueous
    solution package, which the script only instantiates), defined there
    by the relations
      mass_frac[j] = flow_mass[j] / sum of flow_mass over [component_list]
      conc_mass[j] = dens_mass * mass_frac[j],
    taken here from the package's documentation.  The density [dens_mass]
    is the package's and stays a parameter (its documented default is the
    constant 1000 kg/m3).  The value is the one the relations give; there
    is none when a flow is missing or the total flow is zero. *)
Definition mass_frac_phase_comp (s : inlet_state) (j : string) : option Q :=
  match flow_mass_phase_comp s !! ("Liq"%string, j), flow_mass_total s with
  | Some mj, Some total => if Qeq_bool total 0 then None else Some (mj / total)
  | _, _ => None
  end.

Definition conc_mass_phase_comp (dens_mass : Q) (s : inlet_state) (j : string)
  : option Q :=
  match mass_frac_phase_comp s j with
  | Some x => Some (dens_mass * x)
  | None => None
  end.

(** The sum [report_MCAS_stream_conc] prints as "Overall TDS". *)
Definition feed_TDS (dens_mass : Q) (s : inlet_state) : option Q :=
  foldl (fun acc j => match acc, conc_mass_phase_comp dens_mass s j with
                      | Some a, Some c => Some (a + c)
                      | _, _ => None
                      end) (Some 0) solute_set.

(** Sum of the table's concentrations. *)
Definition inlet_dict_total : Q := foldl Qplus 0 (map snd inlet_dict).

(** The flow table's key of component [j]. *)
Definition flow_key (j : string) : string * string := ("Liq"%string, j).

(** The scaling table's key of the mass flow of component [j]. *)
Definition scaling_key (j : string) : string * (string * string) :=
  ("flow_mass_phase_comp"%string, ("Liq"%string, j)).

(** One iteration of the loop, as a change of the state, for a water flow [w]. *)
Definition solute_update (w : Q) (s : inlet_state) (item : string * Q) : inlet_state :=
  let v := w / 1000 * snd item in
  let s1 := with_flow (<[("Liq"%string, fst item) := v]> (flow_mass_phase_comp s)) s in
  with_scaling (<[scaling_key (fst item) := 1 / v]> (default_scaling s1)) s1.

(** An entry the loop can process at water flow [w]: it is not the water
    itself and its mass flow is not zero. *)
Definition solute_ok (w : Q) (item : string * Q) : Prop :=
  fst item <> "H2O"%string /\ Qeq_bool (w / 1000 * snd item) 0 = false.

(** The state the loop starts from: the water flow has just been fixed. *)
Definition water_fixed (w : Q) (s : inlet_state) : inlet_state :=
  with_flow (<[("Liq"%string, "H2O"%string) := w]> (flow_mass_phase_comp s)) s.

(** The state [set_inlet_conditions] leaves for a non-zero water flow [w]
    and pump pressure [ppp]. *)
Definition inlet_final (w ppp : Q) (s : inlet_state) : inlet_state :=
  let s1 := foldl (solute_update w) (water_fixed w s) inlet_dict in
  let s2 := with_scaling (<[scaling_key "H2O" := 1 / w]> (default_scaling s1)) s1 in
  with_scalars (Some ppp) (Some 101325) (Some (273.15 + 20)) (Some 0.85)
    (Some 0.001) s2.

End Inlet.

(** A stand-in for the initialisation of unit [u] on a model that is
    nothing but its count of degrees of freedom: it leaves the model alone
    and raises exactly for the unit [failing], if there is one. *)
Definition sample_unit (failing : option unit_block) (u : unit_block)
  : Z -> option exn * Z :=
  fun m =>
    match failing with
    | Some v => if unit_block_eqb u v
                then (Some (InitializationError "sample"), m)
                else (None, m)
    | None => (None, m)
    end.

Section Flowsheet.
(** The Pyomo model, solver results and solver handle, and the calls into
    the modelling framework and into the unit sub-flowsheet modules. *)
Variables Model Results Solver Optarg : Type.
Variable get_solver : Solver.
Variable options : Solver -> Optarg.
(** [m.fs.<u>.initialize(optarg=optarg)]: returns or raises. *)
Variable initialize : unit_block -> Optarg -> Model -> option exn * Model.
(** [init_softener], [init_UF], [init_ro_system] of the components package. *)
Variable init_softener init_UF init_ro_system : Model -> option exn * Model.
(** [idaes.core.util.initialization.propagate_state]. *)
Variable _prop_state : arc -> Model -> Model.
Variable degrees_of_freedom : Model -> Z.
(** [solver.solve(model, tee=tee)]. *)
Variable solver_solve : Solver -> bool -> Model -> Results * Model.
Variable check_optimal_termination : Results -> bool.
(** The steps of [main] before initialisation, as changes of the model. *)
Variable build_system_model : Model.
Variable expand_arcs add_constraints_to set_operating_conditions_on : Model -> Model.

Local Open Scope prog_scope.
Local Abbreviation P := (prog Model event).

Definition run_unit (u : unit_block) (f : Model -> option exn * Model) : P unit :=
  fun m =>
    match f m with
    | (None, m') => (Return tt, m', [Initialized u])
    | (Some e, m') => (Raise e, m', [Initialized u])
    end.

Definition propagate_state (a : arc) : P unit :=
  fun m => (Return tt, _prop_state a m, [Propagated a]).

Definition report_MCAS_stream_conc : P unit := emit ReportedConc.

(** [assert_no_degrees_of_freedom(m)]: raises unless the count is zero. *)
Definition assert_no_degrees_of_freedom : P unit :=
  dof <- gets degrees_of_freedom ;;
  emit (CheckedDOF dof) ;;
  if (dof =? 0)%Z then ret tt else raise (DegreesOfFreedomError dof).

Definition init_system (verbose : bool) (solver : option Solver) : P unit :=
  let solver := default get_solver solver in
  let optarg := options solver in
  emit (Printed "-------------------- INITIALIZING SYSTEM --------------------") ;;
  dof <- gets degrees_of_freedom ;;
  emit (PrintedDOF dof) ;;
  run_unit feed (initialize feed optarg) ;;
  propagate_state feed_to_primary_pump ;;
  report_MCAS_stream_conc ;;
  run_unit primary_pump (initialize primary_pump optarg) ;;
  propagate_state primary_pump_to_softener ;;
  run_unit softener init_softener ;;
  propagate_state softener_to_translator ;;
  run_unit MCAS_to_NaCl_translator (initialize MCAS_to_NaCl_translator optarg) ;;
  propagate_state translator_to_UF ;;
  run_unit UF init_UF ;;
  propagate_state UF_to_ro_feed ;;
  run_unit RO init_ro_system ;;
  propagate_state ro_to_product ;;
  propagate_state ro_to_disposal ;;
  run_unit product (initialize product optarg) ;;
  run_unit disposal (initialize disposal optarg) ;;
  assert_no_degrees_of_freedom.

Definition infeasible_msg : string :=
  "The current configuration is infeasible. Please adjust the decision variables.".

Definition solve (solver : option Solver) (tee raise_on_failure : bool) : P Results :=
  let solver := default get_solver solver in
  emit (Printed "--------- SOLVING ---------") ;;
  results <- (fun m => let '(r, m') := solver_solve solver tee m in
                       (Return r, m', [GlobalSolve])) ;;
  if check_optimal_termination results then
    emit (Printed "--------- OPTIMAL SOLVE!!! ---------") ;;
    ret results
  else
    if raise_on_failure then
      emit InfeasibleBoundsPrinted ;;
      emit CloseToBoundsPrinted ;;
      raise (RuntimeError infeasible_msg)
    else ret results.

Definition build_system : P unit :=
  modify (fun _ => build_system_model) ;; emit BuiltSystem.
Definition add_connections : P unit :=
  modify expand_arcs ;; emit ExpandedArcs.
Definition add_constraints : P unit :=
  modify add_constraints_to ;; emit AddedConstraints.
Definition set_operating_conditions : P unit :=
  modify set_operating_conditions_on ;; emit SetOperatingConditions.

Definition main : P unit :=
  build_system ;;
  add_connections ;;
  add_constraints ;;
  set_operating_conditions ;;
  init_system true None ;;
  emit PrintedReport ;;
  solve None true true ;;
  emit DisplayedFlowTable.

(** The call [init_system] makes to initialise unit [u]. *)
Definition unit_call (solver : option Solver) (u : unit_block)
  : Model -> option exn * Model :=
  let optarg := options (default get_solver solver) in
  match u with
  | softener => init_softener
  | UF => init_UF
  | RO => init_ro_system
  | _ => initialize u optarg
  end.

(** Every unit's initialisation returns, whatever the model it is given. *)
Definition units_initialize (solver : option Solver) : Prop :=
  forall u m, fst (unit_call solver u m) = None.

(** The model unit [u]'s initialisation leaves. *)
Definition initialized (solver : option Solver) (u : unit_block) (m : Model) : Model :=
  snd (unit_call solver u m).


Definition is_expand (e : event) : bool :=
  match e with ExpandedArcs => true | _ => false end.

Definition is_displayed (e : event) : bool :=
  match e with DisplayedFlowTable => true | _ => false end.


(** *** Properties of the initialisation sequence and of the solve driver *)

(** Case analysis on every external call a program makes. *)
Ltac run_calls :=
  repeat (simpl;
          match goal with
          | |- context [match ?x with _ => _ end] =>
              lazymatch x with
              | context [match _ with _ => _ end] => fail
              | _ => destruct x eqn:?
              end
          end).

Lemma arc_eqb_eq a b : arc_eqb a b = true <-> a = b.
Proof. destruct a, b; simpl; split; intros; congruence. Qed.

Lemma unit_block_eqb_eq u v : unit_block_eqb u v = true <-> u = v.
Proof. destruct u, v; simpl; split; intros; congruence. Qed.

Lemma all_arcs a : In a arcs.
Proof. destruct a; simpl; tauto. Qed.

Lemma propagated_before_init_sound t : forall seen,
  propagated_before_init seen t = true ->
  forall t1 t2 a, t = t1 ++ Initialized (destination a) :: t2 ->
                  In (Propagated a) t1 \/ In a seen.
Proof.
  induction t as [|e t IH]; intros seen Hchk t1 t2 a Heq.
  - destruct t1; discriminate.
  - destruct t1 as [|e1 t1]; simpl in Heq; injection Heq as -> ->.
    + cbn [propagated_before_init] in Hchk. apply andb_prop in Hchk as [Hall _].
      pose proof (proj1 (List.forallb_forall _ _) Hall a (all_arcs a)) as Ha.
      clear Hall. rename Ha into Hall. simpl in Hall.
      apply orb_prop in Hall as [Hne | Hseen].
      * apply negb_true_iff in Hne.
        assert (unit_block_eqb (destination a) (destination a) = true)
          by (now apply unit_block_eqb_eq).
        congruence.
      * right. apply List.existsb_exists in Hseen as (b & Hin & Hab).
        apply arc_eqb_eq in Hab. now subst.
    + destruct e1; cbn [propagated_before_init] in Hchk;
        try (destruct (IH _ Hchk _ _ _ eq_refl) as [H|H]; [left; now right | now right]).
      * apply andb_prop in Hchk as [_ Hchk].
        destruct (IH _ Hchk _ _ _ eq_refl) as [H|H]; [left; now right | now right].
      * destruct (IH _ Hchk _ _ _ eq_refl) as [H|[H|H]];
          [left; now right | left; left; now subst | now right].
Qed.

Ltac unfold_init :=
  unfold init_system, assert_no_degrees_of_freedom, run_unit, propagate_state,
    report_MCAS_stream_conc, bind, emit, gets, ret, raise,
    trace_of, state_of, result_of.

(** A unit call that raised contradicts [units_initialize]. *)
Ltac unit_raised Hok :=
  match goal with
  | H : initialize ?u _ ?m = (Some _, _) |- _ =>
      exfalso; generalize (Hok u m); unfold unit_call; simpl;
      rewrite H; cbv; discriminate
  | H : init_softener ?m = (Some _, _) |- _ =>
      exfalso; generalize (Hok softener m); unfold unit_call; simpl;
      rewrite H; cbv; discriminate
  | H : init_UF ?m = (Some _, _) |- _ =>
      exfalso; generalize (Hok UF m); unfold unit_call; simpl;
      rewrite H; cbv; discriminate
  | H : init_ro_system ?m = (Some _, _) |- _ =>
      exfalso; generalize (Hok RO m); unfold unit_call; simpl;
      rewrite H; cbv; discriminate
  end.

(** Replaces the unit calls of the goal by what they returned. *)
Ltac calls_returned :=
  unfold initialized, unit_call; cbv beta iota zeta;
  repeat match goal with
         | H : _ = (_, _) |- _ => rewrite H; clear H; cbv beta iota delta [fst snd]
         end.

(** C2: in every execution of [init_system] the feed is initialised first,
    on the model as it was given, and the units are initialised in the
    order feed, primary pump, softener, translator, UF, RO, product,
    disposal: a prefix of it when a unit's initialisation raises, all of it
    when [init_system] returns or reaches its final check.  That order is
    topological for the arcs; every unit with an upstream arc is
    initialised only after that arc's state was propagated; no solve
    happens in between.  When no unit's initialisation raises, the run is
    the whole schedule: every unit is initialised and every arc
    propagated, each arc directly before the unit it leads into (the two
    arcs out of the RO before product and disposal), and each unit is
    initialised on the model its upstream arc was just propagated in. *)
Theorem init_system_visits_in_topological_order verbose solver m :
  let run := init_system verbose solver m in
  let t := trace_of run in
  let init := initialized solver in
  (exists rest,
     t = Printed "-------------------- INITIALIZING SYSTEM --------------------"
         :: PrintedDOF (degrees_of_freedom m) :: Initialized feed :: rest) /\
  (exists rest, visiting_order = initialized_units t ++ rest) /\
  (forall d, In (CheckedDOF d) t -> initialized_units t = visiting_order) /\
  (result_of run = Return tt -> initialized_units t = visiting_order) /\
  (forall a, visit_index (source a) < visit_index (destination a)) /\
  (forall t1 t2 a, t = t1 ++ Initialized (destination a) :: t2 ->
                   In (Propagated a) t1) /\
  count_events is_solve t = 0 /\
  (units_initialize solver ->
     t = [Printed "-------------------- INITIALIZING SYSTEM --------------------";
          PrintedDOF (degrees_of_freedom m);
          Initialized feed;
          Propagated feed_to_primary_pump; ReportedConc;
          Initialized primary_pump;
          Propagated primary_pump_to_softener;
          Initialized softener;
          Propagated softener_to_translator;
          Initialized MCAS_to_NaCl_translator;
          Propagated translator_to_UF;
          Initialized UF;
          Propagated UF_to_ro_feed;
          Initialized RO;
          Propagated ro_to_product; Propagated ro_to_disposal;
          Initialized product;
          Initialized disposal;
          CheckedDOF (degrees_of_freedom (state_of run))] /\
     state_of run
     = init disposal
         (init product
            (_prop_state ro_to_disposal
               (_prop_state ro_to_product
                  (init RO
                     (_prop_state UF_to_ro_feed
                        (init UF
                           (_prop_state translator_to_UF
                              (init MCAS_to_NaCl_translator
                                 (_prop_state softener_to_translator
                                    (init softener
                                       (_prop_state primary_pump_to_softener
                                          (init primary_pump
                                             (_prop_state feed_to_primary_pump
                                                (init feed m))))))))))))))).
Proof.
  assert (Hchk : propagated_before_init []
                   (trace_of (init_system verbose solver m)) = true).
  { unfold_init. run_calls; reflexivity. }
  cbv zeta. split; [|split; [|split; [|split; [|split; [|split; [|split]]]]]].
  - unfold_init. run_calls; eexists; reflexivity.
  - unfold_init. run_calls; eexists; reflexivity.
  - unfold_init.
    run_calls; intros d Hin; try reflexivity;
      repeat (destruct Hin as [Hin|Hin]; try discriminate Hin); contradiction.
  - unfold_init. run_calls; intros Hret; first [reflexivity | discriminate Hret].
  - intros a; destruct a; simpl; repeat constructor.
  - intros t1 t2 a Heq.
    destruct (propagated_before_init_sound _ _ Hchk _ _ _ Heq) as [H|[]]; exact H.
  - unfold_init. run_calls; reflexivity.
  - intros Hok. unfold_init.
    run_calls; try unit_raised Hok; (split; [reflexivity|]); calls_returned;
      reflexivity.
Qed.


Ltac unfold_progs :=
  unfold main, build_system, add_connections, add_constraints,
    set_operating_conditions, solve, init_system, assert_no_degrees_of_freedom,
    run_unit, propagate_state, report_MCAS_stream_conc,
    bind, emit, gets, modify, ret, raise, trace_of, state_of, result_of.



(** C3: [solve] calls the external solver exactly once.  An optimal result
    is returned; a non-optimal one, with [raise_on_failure], is followed by
    the two infeasibility printouts and then [RuntimeError]; without
    [raise_on_failure] it is returned with nothing printed.  The model is
    left as that one solve left it: nothing is retried or rescaled. *)
Theorem solve_single_attempt solver tee raise_on_failure m :
  let s := default get_solver solver in
  let res := fst (solver_solve s tee m) in
  let run := solve solver tee raise_on_failure m in
  count_events is_solve (trace_of run) = 1 /\
  state_of run = snd (solver_solve s tee m) /\
  result_of run =
    (if check_optimal_termination res then Return res
     else if raise_on_failure then Raise (RuntimeError infeasible_msg)
          else Return res) /\
  trace_of run =
    Printed "--------- SOLVING ---------" :: GlobalSolve ::
    (if check_optimal_termination res
     then [Printed "--------- OPTIMAL SOLVE!!! ---------"]
     else if raise_on_failure
          then [InfeasibleBoundsPrinted; CloseToBoundsPrinted]
          else []).
Proof.
  cbv zeta. unfold_progs.
  destruct (solver_solve (default get_solver solver) tee m) as [res m1]; simpl.
  destruct (check_optimal_termination res); simpl;
    [|destruct raise_on_failure; simpl]; repeat split; reflexivity.
Qed.



(** X2: the order of [main].  The model is built, the arcs are expanded
    (exactly once in the whole run), the constraints added and the
    operating conditions set, in this order, before anything else.  The
    flow table is displayed exactly when [main] returns, which takes one
    optimal solve as the step before it; once the solve has run and is not
    optimal, [main] prints the two diagnostics and raises [RuntimeError]
    without displaying anything. *)
Theorem main_pipeline_order m0 :
  let run := main m0 in
  let t := trace_of run in
  (exists rest,
     t = BuiltSystem :: ExpandedArcs :: AddedConstraints
         :: SetOperatingConditions :: rest) /\
  count_events is_expand t = 1%nat /\
  (count_events is_displayed t = 1%nat <-> result_of run = Return tt) /\
  (count_events is_displayed t = 0%nat <-> raised (result_of run) = true) /\
  (result_of run = Return tt ->
     exists t0, t = t0 ++ [GlobalSolve;
                           Printed "--------- OPTIMAL SOLVE!!! ---------";
                           DisplayedFlowTable]) /\
  (count_events is_solve t = 1%nat ->
     result_of run = Return tt \/
     (result_of run = Raise (RuntimeError infeasible_msg) /\
      exists t0, t = t0 ++ [GlobalSolve; InfeasibleBoundsPrinted;
                            CloseToBoundsPrinted])).
Proof.
  cbv zeta. split; [|split; [|split; [|split; [|split]]]].
  - unfold_progs. run_calls; eexists; reflexivity.
  - unfold_progs. run_calls; reflexivity.
  - unfold_progs. unfold count_events.
    run_calls; split; intros H; first [reflexivity | cbv in H; discriminate H].
  - unfold_progs. unfold count_events.
    run_calls; split; intros H; first [reflexivity | cbv in H; discriminate H].
  - unfold_progs. run_calls; intros H; try (cbv in H; discriminate H).
    match goal with
    | |- exists t0, ?l = t0 ++ _ =>
        exists (removelast (removelast (removelast l))); reflexivity
    end.
  - unfold_progs. unfold count_events.
    run_calls; intros H; try (cbv in H; discriminate H);
      [left; reflexivity | right; split; [reflexivity|]].
    match goal with
    | |- exists t0, ?l = t0 ++ _ =>
        exists (removelast (removelast (removelast l))); reflexivity
    end.
Qed.

End Flowsheet.


Lemma init_system_visits_in_topological_order_witness :
  initialized_units
    (trace_of (init_system Z unit unit tt (fun _ => tt)
                 (fun u _ => sample_unit None u) (sample_unit None softener)
                 (sample_unit None UF) (sample_unit None RO)
                 (fun _ m => m) (fun m => m) true None 0%Z))
  = visiting_order.
Proof.
  assert (Hok : units_initialize Z unit unit tt (fun _ => tt)
                  (fun u _ => sample_unit None u) (sample_unit None softener)
                  (sample_unit None UF) (sample_unit None RO) None).
  { intros u m. destruct u; reflexivity. }
  destruct (init_system_visits_in_topological_order Z bool unit unit tt
              (fun _ => tt) (fun u _ => sample_unit None u)
              (sample_unit None softener) (sample_unit None UF)
              (sample_unit None RO) (fun _ m => m) (fun m => m)
              (fun _ _ m => (true, m)) 0%Z (fun m => m) (fun m => m)
              (fun m => m) true None 0%Z) as (_ & _ & _ & _ & _ & _ & _ & H).
  destruct (H Hok) as [Htrace _]. rewrite Htrace. reflexivity.
Defined.


(** *** Properties of [set_inlet_conditions] *)
Section InletFacts.
Local Open Scope Q_scope.

Lemma Qeq_bool_mass_flow w c :
  ~ w == 0 -> ~ c == 0 -> Qeq_bool (w / 1000 * c) 0 = false.
Proof.
  intros Hw Hc. destruct (Qeq_bool (w / 1000 * c) 0) eqn:E; [|reflexivity].
  apply Qeq_bool_iff in E. apply Qmult_integral in E as [E|E]; [|contradiction].
  exfalso. apply Hw. unfold Qdiv in E.
  apply Qmult_integral in E as [E|E]; [exact E | discriminate E].
Qed.

Lemma set_solute_run s w item :
  flow_mass_phase_comp s !! ("Liq"%string, "H2O"%string) = Some w ->
  Qeq_bool (w / 1000 * snd item) 0 = false ->
  set_solute item s = (Return tt, solute_update w s item, []).
Proof.
  intros Hw Hnz. destruct item as [j c]. simpl in Hnz.
  unfold set_solute, bind, value_flow, fix_flow, divide, set_default_scaling, modify.
  rewrite Hw. simpl. rewrite lookup_insert_eq. simpl. rewrite Hnz. reflexivity.
Qed.

Lemma solute_update_water w s item :
  fst item <> "H2O"%string ->
  flow_mass_phase_comp (solute_update w s item) !! ("Liq"%string, "H2O"%string)
  = flow_mass_phase_comp s !! ("Liq"%string, "H2O"%string).
Proof.
  intros Hne. unfold solute_update. simpl.
  apply lookup_insert_ne. congruence.
Qed.

Lemma for_each_set_solute l : forall s w,
  flow_mass_phase_comp s !! ("Liq"%string, "H2O"%string) = Some w ->
  Forall (solute_ok w) l ->
  for_each l set_solute s = (Return tt, foldl (solute_update w) s l, []).
Proof.
  induction l as [|item l IH]; intros s w Hw Hall; [reflexivity|].
  apply Forall_cons in Hall as [[Hne Hnz] Hall].
  simpl. unfold bind. rewrite (set_solute_run s w item Hw Hnz).
  rewrite (IH (solute_update w s item) w); [reflexivity | | exact Hall].
  rewrite solute_update_water; assumption.
Qed.

(** Keys the loop does not name keep their entries. *)
Lemma foldl_solute_update_other w l : forall s j,
  ~ In j (map fst l) ->
  flow_mass_phase_comp (foldl (solute_update w) s l) !! ("Liq"%string, j)
    = flow_mass_phase_comp s !! ("Liq"%string, j) /\
  default_scaling (foldl (solute_update w) s l) !! scaling_key j
    = default_scaling s !! scaling_key j.
Proof.
  induction l as [|item l IH]; intros s j Hnin; [split; reflexivity|].
  simpl in Hnin. simpl foldl.
  destruct (IH (solute_update w s item) j) as [Hf Hs]; [tauto|].
  rewrite Hf, Hs. unfold solute_update, scaling_key. simpl.
  split; apply lookup_insert_ne; intros Heq; apply Hnin; left; congruence.
Qed.

(** Keys the loop names end with the mass flow and its reciprocal. *)
Lemma foldl_solute_update_in w l : forall s j c,
  NoDup (map fst l) -> In (j, c) l ->
  flow_mass_phase_comp (foldl (solute_update w) s l) !! ("Liq"%string, j)
    = Some (w / 1000 * c) /\
  default_scaling (foldl (solute_update w) s l) !! scaling_key j
    = Some (1 / (w / 1000 * c)).
Proof.
  induction l as [|item l IH]; intros s j c Hnd Hin; [destruct Hin|].
  simpl in Hnd. apply NoDup_cons in Hnd as [Hnin Hnd].
  simpl foldl. destruct Hin as [->|Hin].
  - simpl in Hnin.
    destruct (foldl_solute_update_other w l (solute_update w s (j, c)) j) as [Hf Hs].
    { intros Hin. apply Hnin. apply list_elem_of_In. exact Hin. }
    rewrite Hf, Hs. unfold solute_update, scaling_key. simpl.
    split; apply lookup_insert_eq.
  - apply IH; assumption.
Qed.

Lemma inlet_dict_keys_NoDup : NoDup (map fst inlet_dict).
Proof. apply (bool_decide_unpack _). vm_compute. exact I. Qed.

Lemma inlet_dict_ok w : ~ w == 0 -> Forall (solute_ok w) inlet_dict.
Proof.
  intros Hw. unfold inlet_dict.
  repeat (apply Forall_cons; split;
          [split; [discriminate | apply Qeq_bool_mass_flow; [exact Hw | discriminate]]|]).
  apply Forall_nil. trivial.
Qed.

Lemma water_fixed_lookup w s :
  flow_mass_phase_comp (water_fixed w s) !! ("Liq"%string, "H2O"%string) = Some w.
Proof. apply lookup_insert_eq. Qed.

Lemma foldl_solute_update_water w l : forall s,
  Forall (solute_ok w) l ->
  flow_mass_phase_comp (foldl (solute_update w) s l) !! ("Liq"%string, "H2O"%string)
  = flow_mass_phase_comp s !! ("Liq"%string, "H2O"%string).
Proof.
  induction l as [|item l IH]; intros s Hall; [reflexivity|].
  apply Forall_cons in Hall as [[Hne _] Hall]. simpl foldl.
  rewrite IH by exact Hall. apply solute_update_water. exact Hne.
Qed.

Lemma set_inlet_conditions_run Qin Cin water_recovery ppp s :
  let w := default 1 Qin in
  ~ w == 0 ->
  set_inlet_conditions Qin Cin water_recovery ppp s
  = (Return tt, inlet_final w ppp s,
     [Printed "=======> SETTING OPERATING CONDITIONS <======="; ReportedConc]).
Proof.
  intros w Hw. unfold set_inlet_conditions.
  assert (Hfix : match Qin with
                 | Some q => fix_flow "H2O" q
                 | None => fix_flow "H2O" 1
                 end s = (Return tt, water_fixed w s, [])).
  { subst w. destruct Qin; reflexivity. }
  unfold bind at 1. unfold emit at 1. unfold bind at 1. rewrite Hfix.
  unfold bind at 1.
  rewrite (for_each_set_solute inlet_dict (water_fixed w s) w
             (water_fixed_lookup w s) (inlet_dict_ok w Hw)).
  unfold bind at 1. unfold value_flow at 1.
  rewrite foldl_solute_update_water by (apply inlet_dict_ok; exact Hw).
  rewrite water_fixed_lookup.
  unfold bind at 1. unfold divide.
  destruct (Qeq_bool w 0) eqn:E; [apply Qeq_bool_iff in E; contradiction|].
  reflexivity.
Qed.

(** C9: for every solute of the table, [set_inlet_conditions] fixes its
    mass flow to (water mass flow / 1000) * concentration and sets the
    default scaling factor of that flow to 1 / (that value); and the two
    are written in the same iteration: at every point between two
    iterations, the solutes already visited have both, the others have
    neither written yet. *)
Theorem set_inlet_conditions_flow_and_scaling
    Qin Cin water_recovery ppp s solute conc :
  let w := default 1 Qin in
  ~ w == 0 ->
  In (solute, conc) inlet_dict ->
  let run := set_inlet_conditions Qin Cin water_recovery ppp s in
  result_of run = Return tt /\
  flow_mass_phase_comp (state_of run) !! ("Liq"%string, solute)
    = Some (w / 1000 * conc) /\
  default_scaling (state_of run) !! scaling_key solute
    = Some (1 / (w / 1000 * conc)) /\
  forall visited rest, inlet_dict = visited ++ rest ->
    let s0 := water_fixed w s in
    let sk := state_of (for_each visited set_solute s0) in
    (In (solute, conc) visited ->
       flow_mass_phase_comp sk !! ("Liq"%string, solute) = Some (w / 1000 * conc) /\
       default_scaling sk !! scaling_key solute = Some (1 / (w / 1000 * conc))) /\
    (In (solute, conc) rest ->
       flow_mass_phase_comp sk !! ("Liq"%string, solute)
         = flow_mass_phase_comp s0 !! ("Liq"%string, solute) /\
       default_scaling sk !! scaling_key solute
         = default_scaling s0 !! scaling_key solute).
Proof.
  intros w Hw Hin run. subst run.
  rewrite (set_inlet_conditions_run Qin Cin water_recovery ppp s Hw).
  unfold result_of, state_of. simpl fst. simpl snd.
  destruct (foldl_solute_update_in w inlet_dict (water_fixed w s) solute conc
              inlet_dict_keys_NoDup Hin) as [Hf Hs].
  split; [reflexivity|]. split; [|split].
  - unfold inlet_final. simpl. exact Hf.
  - unfold inlet_final. simpl. rewrite lookup_insert_ne; [exact Hs|].
    unfold scaling_key. intros Heq. injection Heq as Heq.
    pose proof (inlet_dict_ok w Hw) as Hall.
    rewrite List.Forall_forall in Hall. destruct (Hall _ Hin) as [Hne _].
    simpl in Hne. congruence.
  - intros visited rest Hsplit. cbv zeta.
    pose proof (inlet_dict_ok w Hw) as Hall. rewrite Hsplit in Hall.
    apply Forall_app in Hall as [Hvis _].
    pose proof inlet_dict_keys_NoDup as Hnd. rewrite Hsplit, map_app in Hnd.
    apply NoDup_app in Hnd as (Hndv & Hdisj & _).
    rewrite (for_each_set_solute visited (water_fixed w s) w
               (water_fixed_lookup w s) Hvis).
    unfold state_of. simpl fst. simpl snd. split.
    + intros Hv. apply foldl_solute_update_in; assumption.
    + intros Hr. apply foldl_solute_update_other.
      intros Hv. apply list_elem_of_In in Hv. apply (Hdisj _ Hv).
      apply list_elem_of_In. apply in_map_iff. exists (solute, conc). split; [reflexivity|].
      exact Hr.
Qed.

(** [set_operating_conditions] passes [Qin=1]: the calcium entry. *)
Lemma set_inlet_conditions_flow_and_scaling_witness :
  let run := set_inlet_conditions (Some 1) None None 3000000 initial_inlet_state in
  flow_mass_phase_comp (state_of run) !! ("Liq"%string, "Ca_2+"%string)
    = Some (1 / 1000 * 0.13) /\
  default_scaling (state_of run) !! scaling_key "Ca_2+"
    = Some (1 / (1 / 1000 * 0.13)).
Proof.
  pose proof (set_inlet_conditions_flow_and_scaling (Some 1) None None 3000000
                initial_inlet_state "Ca_2+" 0.13) as H.
  cbv zeta in H. simpl default in H.
  destruct H as (_ & Hf & Hs & _).
  - discriminate.
  - simpl. tauto.
  - split; [exact Hf | exact Hs].
Defined.

(** With a zero water flow the first iteration divides by zero. *)
Lemma set_inlet_conditions_zero_flow :
  result_of (set_inlet_conditions (Some 0) None None 3000000 initial_inlet_state)
  = Raise ZeroDivisionError.
Proof. vm_compute. reflexivity. Qed.

Lemma inlet_final_flow w ppp s j c :
  ~ w == 0 -> In (j, c) inlet_dict ->
  flow_mass_phase_comp (inlet_final w ppp s) !! ("Liq"%string, j) = Some (w / 1000 * c).
Proof.
  intros Hw Hin. unfold inlet_final, with_scalars, with_scaling.
  cbn [flow_mass_phase_comp].
  apply foldl_solute_update_in; [exact inlet_dict_keys_NoDup | exact Hin].
Qed.

Lemma inlet_final_water w ppp s :
  ~ w == 0 ->
  flow_mass_phase_comp (inlet_final w ppp s) !! ("Liq"%string, "H2O"%string) = Some w.
Proof.
  intros Hw. unfold inlet_final, with_scalars, with_scaling.
  cbn [flow_mass_phase_comp].
  rewrite foldl_solute_update_water by (apply inlet_dict_ok; exact Hw).
  apply water_fixed_lookup.
Qed.

Lemma inlet_final_total w ppp s :
  ~ w == 0 ->
  exists total, flow_mass_total (inlet_final w ppp s) = Some total /\
                total == w * 1.002467 /\ Qeq_bool total 0 = false.
Proof.
  intros Hw. unfold flow_mass_total, component_list, solute_set. cbn [foldl].
  rewrite (inlet_final_water w ppp s Hw).
  rewrite (inlet_final_flow w ppp s "Alkalinity_2-" 0.08 Hw) by (simpl; tauto).
  rewrite (inlet_final_flow w ppp s "Ca_2+" 0.13 Hw) by (simpl; tauto).
  rewrite (inlet_final_flow w ppp s "Cl_-" 1.18 Hw) by (simpl; tauto).
  rewrite (inlet_final_flow w ppp s "Mg_2+" 0.03 Hw) by (simpl; tauto).
  rewrite (inlet_final_flow w ppp s "K_+" 0.016 Hw) by (simpl; tauto).
  rewrite (inlet_final_flow w ppp s "SiO2" 0.031 Hw) by (simpl; tauto).
  rewrite (inlet_final_flow w ppp s "Na_+" 0.77 Hw) by (simpl; tauto).
  rewrite (inlet_final_flow w ppp s "SO2_-4+" 0.23 Hw) by (simpl; tauto).
  eexists. split; [reflexivity|].
  assert (Heq : 0 + w + w / 1000 * 0.08 + w / 1000 * 0.13 + w / 1000 * 1.18
                + w / 1000 * 0.03 + w / 1000 * 0.016 + w / 1000 * 0.031
                + w / 1000 * 0.77 + w / 1000 * 0.23 == w * 1.002467) by field.
  split; [exact Heq|].
  match goal with |- Qeq_bool ?t 0 = false => destruct (Qeq_bool t 0) eqn:E end;
    [|reflexivity].
  apply Qeq_bool_iff in E. rewrite Heq in E.
  apply Qmult_integral in E as [E|E]; [contradiction | discriminate E].
Qed.

(** C5, as the code has it: the concentrations of the table sum to 2.467
    kg/m3.  Once [set_inlet_conditions] has run (with the water flow at
    1 kg/s or at any other non-zero value) the feed TDS, the sum over the
    solute set of the per-component concentrations of the property
    package at density [dens_mass], is dens_mass * 2.467 / 1002.467:
    2467000/1002467 (about 2.461) kg/m3 at 1000 kg/m3, below 2.486 for
    every density up to 1010 kg/m3, and 2.487 only at the one density
    2.487 * 1002.467 / 2.467 (about 1010.6 kg/m3). *)
Theorem feed_TDS_after_set_inlet_conditions
    Qin Cin water_recovery ppp s dens_mass :
  ~ default 1 Qin == 0 ->
  inlet_dict_total == 2.467 /\
  exists tds,
    feed_TDS dens_mass
      (state_of (set_inlet_conditions Qin Cin water_recovery ppp s)) = Some tds /\
    tds == dens_mass * 2.467 / 1002.467 /\
    (dens_mass == 1000 -> tds == 2467000 / 1002467) /\
    (dens_mass <= 1010 -> tds < 2.486) /\
    (tds == 2.487 <-> dens_mass == 2.487 * 1002.467 / 2.467).
Proof.
  intros Hw. split; [vm_compute; reflexivity|].
  rewrite (set_inlet_conditions_run Qin Cin water_recovery ppp s Hw).
  unfold state_of. simpl fst. simpl snd.
  set (w := default 1 Qin) in *.
  destruct (inlet_final_total w ppp s Hw) as (total & Htot & Heq & Hnz).
  unfold feed_TDS, solute_set. cbn [foldl].
  unfold conc_mass_phase_comp, mass_frac_phase_comp. rewrite Htot, Hnz.
  rewrite (inlet_final_flow w ppp s "Alkalinity_2-" 0.08 Hw) by (simpl; tauto).
  rewrite (inlet_final_flow w ppp s "Ca_2+" 0.13 Hw) by (simpl; tauto).
  rewrite (inlet_final_flow w ppp s "Cl_-" 1.18 Hw) by (simpl; tauto).
  rewrite (inlet_final_flow w ppp s "Mg_2+" 0.03 Hw) by (simpl; tauto).
  rewrite (inlet_final_flow w ppp s "K_+" 0.016 Hw) by (simpl; tauto).
  rewrite (inlet_final_flow w ppp s "SiO2" 0.031 Hw) by (simpl; tauto).
  rewrite (inlet_final_flow w ppp s "Na_+" 0.77 Hw) by (simpl; tauto).
  rewrite (inlet_final_flow w ppp s "SO2_-4+" 0.23 Hw) by (simpl; tauto).
  eexists. split; [reflexivity|].
  assert (Htds : 0 + dens_mass * (w / 1000 * 0.08 / total)
                 + dens_mass * (w / 1000 * 0.13 / total)
                 + dens_mass * (w / 1000 * 1.18 / total)
                 + dens_mass * (w / 1000 * 0.03 / total)
                 + dens_mass * (w / 1000 * 0.016 / total)
                 + dens_mass * (w / 1000 * 0.031 / total)
                 + dens_mass * (w / 1000 * 0.77 / total)
                 + dens_mass * (w / 1000 * 0.23 / total)
                 == dens_mass * 2.467 / 1002.467).
  { assert (Hnz' : ~ total == 0).
    { intros E. apply Qeq_bool_iff in E. congruence. }
    transitivity (dens_mass * (w * 0.002467) / total); [field; exact Hnz'|].
    rewrite Heq. field. exact Hw. }
  split; [exact Htds|]. rewrite Htds. split; [|split].
  - intros Hd. rewrite Hd. reflexivity.
  - intros Hd. apply Qlt_shift_div_r; [reflexivity|]. lra.
  - split; intros H.
    + transitivity (dens_mass * 2.467 / 1002.467 * (1002.467 / 2.467)); [field|].
      rewrite H. reflexivity.
    + rewrite H. reflexivity.
Qed.

(** [set_operating_conditions] passes [Qin=1]; the density is the package's
    default. *)
Lemma feed_TDS_after_set_inlet_conditions_witness :
  inlet_dict_total == 2.467 /\
  exists tds,
    feed_TDS 1000 (state_of (set_inlet_conditions (Some 1) None None 3000000
                               initial_inlet_state)) = Some tds /\
    tds == 2467000 / 1002467.
Proof.
  destruct (feed_TDS_after_set_inlet_conditions (Some 1) None None 3000000
              initial_inlet_state 1000) as (Htab & tds & Hrun & _ & Hd & _).
  - simpl. discriminate.
  - split; [exact Htab|]. exists tds. split; [exact Hrun|].
    apply Hd. reflexivity.
Defined.

(** C5 as stated fails: the table's concentrations sum to 0.02 kg/m3 less
    than 2.487, and with the water flow fixed at 1 kg/s the feed TDS at
    the density 1000 kg/m3 is more than 0.025 kg/m3 away from 2.487. *)
Lemma feed_TDS_is_not_2_487 :
  Qabs (inlet_dict_total - 2.487) == 0.02 /\
  ~ Qabs (inlet_dict_total - 2.487) <= 0.001 /\
  exists tds,
    feed_TDS 1000 (state_of (set_inlet_conditions (Some 1) None None 3000000
                               initial_inlet_state)) = Some tds /\
    0.025 < Qabs (tds - 2.487) /\
    ~ Qabs (tds - 2.487) <= 0.001.
Proof.
  split; [vm_compute; reflexivity|].
  split; [vm_compute; intros H; apply H; reflexivity|].
  eexists. split; [vm_compute; reflexivity|].
  split; [vm_compute; reflexivity | vm_compute; intros H; apply H; reflexivity].
Qed.

(** *** Frame and re-run of [set_inlet_conditions] *)

(** The loop touches no flow entry and no scaling entry but those of the
    solutes it is given. *)
Lemma foldl_solute_update_frame w l : forall s,
  (forall k, ~ In k (map (fun it => flow_key (fst it)) l) ->
     flow_mass_phase_comp (foldl (solute_update w) s l) !! k
       = flow_mass_phase_comp s !! k) /\
  (forall k, ~ In k (map (fun it => scaling_key (fst it)) l) ->
     default_scaling (foldl (solute_update w) s l) !! k
       = default_scaling s !! k).
Proof.
  induction l as [|item l IH]; intros s; [split; reflexivity|].
  destruct (IH (solute_update w s item)) as [IHf IHs].
  split; intros k Hk; simpl in Hk; simpl foldl.
  - rewrite IHf by tauto. unfold solute_update. simpl.
    apply lookup_insert_ne. intros Heq. apply Hk. left. exact Heq.
  - rewrite IHs by tauto. unfold solute_update. simpl.
    apply lookup_insert_ne. intros Heq. apply Hk. left. exact Heq.
Qed.

Lemma inlet_final_scaling w ppp s j c :
  ~ w == 0 -> In (j, c) inlet_dict ->
  default_scaling (inlet_final w ppp s) !! scaling_key j = Some (1 / (w / 1000 * c)).
Proof.
  intros Hw Hin. unfold inlet_final, with_scalars, with_scaling.
  cbn [default_scaling].
  pose proof (inlet_dict_ok w Hw) as Hall.
  rewrite List.Forall_forall in Hall. destruct (Hall _ Hin) as [Hne _].
  rewrite lookup_insert_ne by (unfold scaling_key; simpl in Hne; congruence).
  apply foldl_solute_update_in; [exact inlet_dict_keys_NoDup | exact Hin].
Qed.

Lemma inlet_final_flow_frame w ppp s k :
  k <> flow_key "H2O" ->
  ~ In k (map (fun it => flow_key (fst it)) inlet_dict) ->
  flow_mass_phase_comp (inlet_final w ppp s) !! k = flow_mass_phase_comp s !! k.
Proof.
  intros Hk Hnin. unfold inlet_final, with_scalars, with_scaling.
  cbn [flow_mass_phase_comp].
  rewrite (proj1 (foldl_solute_update_frame w inlet_dict (water_fixed w s)) k Hnin).
  unfold water_fixed. cbn [flow_mass_phase_comp with_flow].
  apply lookup_insert_ne. intros Heq. apply Hk. symmetry. exact Heq.
Qed.

Lemma inlet_final_scaling_frame w ppp s k :
  k <> scaling_key "H2O" ->
  ~ In k (map (fun it => scaling_key (fst it)) inlet_dict) ->
  default_scaling (inlet_final w ppp s) !! k = default_scaling s !! k.
Proof.
  intros Hk Hnin. unfold inlet_final, with_scalars, with_scaling.
  cbn [default_scaling].
  rewrite lookup_insert_ne by (intros Heq; apply Hk; symmetry; exact Heq).
  rewrite (proj2 (foldl_solute_update_frame w inlet_dict (water_fixed w s)) k Hnin).
  reflexivity.
Qed.

Lemma inlet_final_water_scaling w ppp s :
  default_scaling (inlet_final w ppp s) !! scaling_key "H2O" = Some (1 / w).
Proof.
  unfold inlet_final, with_scalars, with_scaling. cbn [default_scaling].
  apply lookup_insert_eq.
Qed.

(** X3: what [set_inlet_conditions] writes and what it leaves alone.  For
    a non-zero water flow it ends with the water flow fixed to that value
    and the water's scaling factor set to its reciprocal, whatever was
    there before (the factor of [build_system] is overwritten); with the
    pump outlet pressure, the feed pressure 101325, the feed temperature
    273.15 + 20, the pump efficiency 0.85 and the work scaling 1e-3; and
    with every flow entry and every scaling entry other than those of the
    water and of the eight solutes of the table as it found them. *)
Theorem set_inlet_conditions_frame Qin Cin water_recovery ppp s :
  let w := default 1 Qin in
  ~ w == 0 ->
  let s' := state_of (set_inlet_conditions Qin Cin water_recovery ppp s) in
  flow_mass_phase_comp s' !! flow_key "H2O" = Some w /\
  default_scaling s' !! scaling_key "H2O" = Some (1 / w) /\
  (forall k, k <> flow_key "H2O" ->
     ~ In k (map (fun it => flow_key (fst it)) inlet_dict) ->
     flow_mass_phase_comp s' !! k = flow_mass_phase_comp s !! k) /\
  (forall k, k <> scaling_key "H2O" ->
     ~ In k (map (fun it => scaling_key (fst it)) inlet_dict) ->
     default_scaling s' !! k = default_scaling s !! k) /\
  pump_outlet_pressure s' = Some ppp /\
  feed_pressure s' = Some 101325 /\
  feed_temperature s' = Some (273.15 + 20) /\
  efficiency_pump s' = Some 0.85 /\
  work_scaling_factor s' = Some 0.001.
Proof.
  intros w Hw s'. subst s'.
  rewrite (set_inlet_conditions_run Qin Cin water_recovery ppp s Hw).
  unfold state_of. cbn [fst snd]. fold w.
  split; [apply inlet_final_water; exact Hw|].
  split; [apply inlet_final_water_scaling|].
  split; [intros k; apply inlet_final_flow_frame|].
  split; [intros k; apply inlet_final_scaling_frame|].
  repeat split.
Qed.

(** The NaCl scaling factor [build_system] sets survives a run at 1 kg/s. *)
Lemma set_inlet_conditions_frame_witness :
  let s := with_scaling (<[scaling_key "NaCl" := 0.1]> ∅) initial_inlet_state in
  let s' := state_of (set_inlet_conditions (Some 1) None None 3000000 s) in
  default_scaling s' !! scaling_key "H2O" = Some (1 / 1) /\
  default_scaling s' !! scaling_key "NaCl" = Some 0.1.
Proof.
  intros s.
  destruct (set_inlet_conditions_frame (Some 1) None None 3000000 s)
    as (_ & Hw & _ & Hs & _).
  - discriminate.
  - split; [exact Hw|].
    rewrite (Hs (scaling_key "NaCl")).
    + reflexivity.
    + discriminate.
    + simpl. intros H. repeat (destruct H as [H|H]; [discriminate H|]). exact H.
Defined.

(** A state is known by its two tables once its scalars are written. *)
Lemma with_scalars_ext pp fp ft ep ws s s' :
  flow_mass_phase_comp s = flow_mass_phase_comp s' ->
  default_scaling s = default_scaling s' ->
  with_scalars pp fp ft ep ws s = with_scalars pp fp ft ep ws s'.
Proof. intros Hf Hs. unfold with_scalars. rewrite Hf, Hs. reflexivity. Qed.

Lemma with_scalars_tables pp fp ft ep ws s :
  flow_mass_phase_comp (with_scalars pp fp ft ep ws s) = flow_mass_phase_comp s /\
  default_scaling (with_scalars pp fp ft ep ws s) = default_scaling s.
Proof. split; reflexivity. Qed.

(** Two final states are the same when their flows and scalings are. *)
Lemma inlet_final_ext w ppp s s' :
  flow_mass_phase_comp (inlet_final w ppp s)
    = flow_mass_phase_comp (inlet_final w ppp s') ->
  default_scaling (inlet_final w ppp s) = default_scaling (inlet_final w ppp s') ->
  inlet_final w ppp s = inlet_final w ppp s'.
Proof.
  unfold inlet_final.
  intros Hf Hs.
  rewrite !(proj1 (with_scalars_tables _ _ _ _ _ _)) in Hf.
  rewrite !(proj2 (with_scalars_tables _ _ _ _ _ _)) in Hs.
  apply with_scalars_ext; assumption.
Qed.

(** X4: a later run of [set_inlet_conditions] replaces an earlier one
    altogether: running it with a (non-zero) water flow after a run with
    another leaves the state a single run with the later arguments leaves.
    In particular running it twice with the same arguments changes
    nothing the second time. *)
Theorem set_inlet_conditions_rerun Qin1 Cin1 wr1 ppp1 Qin2 Cin2 wr2 ppp2 s :
  ~ default 1 Qin1 == 0 ->
  ~ default 1 Qin2 == 0 ->
  state_of (set_inlet_conditions Qin2 Cin2 wr2 ppp2
              (state_of (set_inlet_conditions Qin1 Cin1 wr1 ppp1 s)))
  = state_of (set_inlet_conditions Qin2 Cin2 wr2 ppp2 s).
Proof.
  intros Hw1 Hw2.
  rewrite (set_inlet_conditions_run Qin1 Cin1 wr1 ppp1 s Hw1).
  unfold state_of at 2. cbn [fst snd].
  rewrite !(set_inlet_conditions_run Qin2 Cin2 wr2 ppp2 _ Hw2).
  unfold state_of. cbn [fst snd].
  set (w1 := default 1 Qin1) in *. set (w2 := default 1 Qin2) in *.
  set (s1 := inlet_final w1 ppp1 s).
  assert (Hflow : flow_mass_phase_comp (inlet_final w2 ppp2 s1)
                  = flow_mass_phase_comp (inlet_final w2 ppp2 s)).
  { apply map_eq. intros k.
    destruct (decide (k = flow_key "H2O")) as [->|Hk].
    { unfold flow_key. rewrite !inlet_final_water by exact Hw2. reflexivity. }
    destruct (decide (k ∈ map (fun it => flow_key (fst it)) inlet_dict))
      as [Hin|Hnin'].
    - apply list_elem_of_In in Hin.
      apply in_map_iff in Hin as ([j c] & <- & Hin). unfold flow_key. cbn [fst].
      rewrite !(inlet_final_flow w2 ppp2 _ j c Hw2 Hin). reflexivity.
    - assert (Hnin : ~ In k (map (fun it => flow_key (fst it)) inlet_dict))
        by (intros H; apply Hnin', list_elem_of_In; exact H).
      rewrite !(inlet_final_flow_frame w2 ppp2 _ k Hk Hnin).
      apply (inlet_final_flow_frame w1 ppp1 s k Hk Hnin). }
  assert (Hscal : default_scaling (inlet_final w2 ppp2 s1)
                  = default_scaling (inlet_final w2 ppp2 s)).
  { apply map_eq. intros k.
    destruct (decide (k = scaling_key "H2O")) as [->|Hk].
    { rewrite !inlet_final_water_scaling. reflexivity. }
    destruct (decide (k ∈ map (fun it => scaling_key (fst it)) inlet_dict))
      as [Hin|Hnin'].
    - apply list_elem_of_In in Hin.
      apply in_map_iff in Hin as ([j c] & <- & Hin). cbn [fst].
      rewrite !(inlet_final_scaling w2 ppp2 _ j c Hw2 Hin). reflexivity.
    - assert (Hnin : ~ In k (map (fun it => scaling_key (fst it)) inlet_dict))
        by (intros H; apply Hnin', list_elem_of_In; exact H).
      rewrite !(inlet_final_scaling_frame w2 ppp2 _ k Hk Hnin).
      apply (inlet_final_scaling_frame w1 ppp1 s k Hk Hnin). }
  apply inlet_final_ext; assumption.
Qed.

Lemma set_inlet_conditions_rerun_witness :
  state_of (set_inlet_conditions (Some 1) None None 3000000
              (state_of (set_inlet_conditions (Some 2) None None 2000000
                           initial_inlet_state)))
  = state_of (set_inlet_conditions (Some 1) None None 3000000 initial_inlet_state).
Proof.
  apply (set_inlet_conditions_rerun (Some 2) None None 2000000
           (Some 1) None None 3000000 initial_inlet_state); discriminate.
Defined.

End InletFacts.

End KBHDP.

(** * solar_models/surrogate/trough/trough_surrogate.py *)
Module TroughSurrogate.

(** The variables and parameters of a [TroughSurrogate] block that
    [initialize_build] reads or writes.  [heat_load], [hours_storage], the
    scaled outputs, their scaling parameters, [heat] and [electricity] are
    declared by the base class [SolarEnergyBaseData]. *)
Record trough_vars : Type := {
  heat_load : Q;
  hours_storage : Q;
  heat_annual_scaled : Q;
  electricity_annual_scaled : Q;
  heat_annual_scaling : Q;
  electricity_annual_scaling : Q;
  heat : Q;
  electricity : Q;
  land_area : Q
}.

Definition set_heat_annual_scaled (v : Q) (b : trough_vars) : trough_vars :=
  {| heat_load := heat_load b; hours_storage := hours_storage b;
     heat_annual_scaled := v;
     electricity_annual_scaled := electricity_annual_scaled b;
     heat_annual_scaling := heat_annual_scaling b;
     electricity_annual_scaling := electricity_annual_scaling b;
     heat := heat b; electricity := electricity b; land_area := land_area b |}.

Definition set_electricity_annual_scaled (v : Q) (b : trough_vars) : trough_vars :=
  {| heat_load := heat_load b; hours_storage := hours_storage b;
     heat_annual_scaled := heat_annual_scaled b;
     electricity_annual_scaled := v;
     heat_annual_scaling := heat_annual_scaling b;
     electricity_annual_scaling := electricity_annual_scaling b;
     heat := heat b; electricity := electricity b; land_area := land_area b |}.

Definition set_heat (v : Q) (b : trough_vars) : trough_vars :=
  {| heat_load := heat_load b; hours_storage := hours_storage b;
     heat_annual_scaled := heat_annual_scaled b;
     electricity_annual_scaled := electricity_annual_scaled b;
     heat_annual_scaling := heat_annual_scaling b;
     electricity_annual_scaling := electricity_annual_scaling b;
     heat := v; electricity := electricity b; land_area := land_area b |}.

Definition set_electricity (v : Q) (b : trough_vars) : trough_vars :=
  {| heat_load := heat_load b; hours_storage := hours_storage b;
     heat_annual_scaled := heat_annual_scaled b;
     electricity_annual_scaled := electricity_annual_scaled b;
     heat_annual_scaling := heat_annual_scaling b;
     electricity_annual_scaling := electricity_annual_scaling b;
     heat := heat b; electricity := v; land_area := land_area b |}.

Inductive event : Type :=
| SurrogateEvaluated (heat_load hours_storage : Q)
| LocalSolve
| InfoHigh (msg : string)
| Info (msg : string).

Definition is_solve (e : event) : bool :=
  match e with LocalSolve => true | _ => false end.

Definition is_complete (e : event) : bool :=
  match e with Info _ => true | _ => false end.

Definition failed_to_initialize (name : string) : string :=
  ("Unit model " ++ name ++ " failed to initialize")%string.

(** *** Scaling factors *)

(** What [calculate_scaling_factors] logs: the warning of
    [get_scaling_factor(..., warning=True)] for a missing factor. *)
Inductive scaling_event : Type :=
| MissingScalingFactor (component : string).

(** The eight blocks of [calculate_scaling_factors], in order: the
    component, the default factor and the [warning] flag. *)
Definition scaling_defaults : list (string * Q * bool) :=
  [("hours_storage"%string, 1, false);
   ("heat_load"%string, 0.001, true);
   ("heat_annual_scaled"%string, 1, true);
   ("heat"%string, 0.0001, true);
   ("electricity_annual_scaled"%string, 1, true);
   ("electricity"%string, 0.001, true);
   ("total_aperture_area"%string, 0.000001, true);
   ("land_area"%string, 0.1, true)]%Q.

(** [iscale.get_scaling_factor(c)] and [iscale.set_scaling_factor(c, sf)]
    on the block's scaling-factor suffix. *)
Definition get_scaling_factor (c : string) (t : gmap string Q) : option Q := t !! c.
Definition set_scaling_factor (c : string) (sf : Q) (t : gmap string Q)
  : gmap string Q := <[c := sf]> t.

(** One block: [if get_scaling_factor(c) is None: sf =
    get_scaling_factor(c, default=d, warning=w); set_scaling_factor(c, sf)]. *)
Definition default_scaling_factor (block : string * Q * bool)
  : prog (gmap string Q) scaling_event unit :=
  let '(c, d, w) := block in
  fun t =>
    match get_scaling_factor c t with
    | Some _ => (Return tt, t, [])
    | None =>
        let sf := default d (get_scaling_factor c t) in
        (Return tt, set_scaling_factor c sf t,
         if w then [MissingScalingFactor c] else [])
    end.

Fixpoint for_each_block (l : list (string * Q * bool))
  : prog (gmap string Q) scaling_event unit :=
  match l with
  | [] => ret tt
  | block :: l' => bind (default_scaling_factor block) (fun _ => for_each_block l')
  end.

Definition calculate_scaling_factors : prog (gmap string Q) scaling_event unit :=
  for_each_block scaling_defaults.

(** One block as a change of the table. *)
Definition fill_default (t : gmap string Q) (block : string * Q * bool)
  : gmap string Q :=
  match t !! fst (fst block) with
  | Some _ => t
  | None => <[fst (fst block) := snd (fst block)]> t
  end.

(** *** The constraints of [build] on the hourly rates *)

(** [self.heat_annual] and [self.electricity_annual]. *)
Definition heat_annual (b : trough_vars) : Q :=
  (heat_annual_scaled b / heat_annual_scaling b)%Q.
Definition electricity_annual (b : trough_vars) : Q :=
  (electricity_annual_scaled b / electricity_annual_scaling b)%Q.

(** [heat_constraint] and [electricity_constraint], [hour_in_years] being
    the value of [pyunits.convert(1 * pyunits.hour, to_units=pyunits.year)]. *)
Definition heat_constraint (hour_in_years : Q) (b : trough_vars) : Prop :=
  (heat b == heat_annual b * hour_in_years)%Q.
Definition electricity_constraint (hour_in_years : Q) (b : trough_vars) : Prop :=
  (electricity b == electricity_annual b * hour_in_years)%Q.

(** A block at 10 MWt and 6 h of storage with unit scaling parameters, and
    a surrogate that answers 87660 and 8766 for it. *)
Definition sample_block : trough_vars :=
  {| heat_load := 10; hours_storage := 6;
     heat_annual_scaled := 0; electricity_annual_scaled := 0;
     heat_annual_scaling := 1; electricity_annual_scaling := 1;
     heat := 0; electricity := 0; land_area := 0 |}%Q.
Definition sample_surrogate : Q -> Q -> Q * Q := fun _ _ => (87660, 8766)%Q.

Section Initialize.
Variables Results Optarg Opt : Type.
(** [self.surrogate.evaluate_surrogate(data)]: the scaled annual heat and
    the scaled annual electricity at (heat_load, hours_storage). *)
Variable evaluate_surrogate : Q -> Q -> Q * Q.
(** [get_solver(solver, optarg)], the solver being named by a string. *)
Variable get_solver : option string -> option Optarg -> Opt.
(** [opt.solve(self, tee=...)]. *)
Variable opt_solve : Opt -> trough_vars -> Results * trough_vars.
Variable check_optimal_termination : Results -> bool.
(** [idaeslog.condition(res)]. *)
Variable condition : Results -> string.

Local Open Scope prog_scope.
Local Open Scope Q_scope.
Local Abbreviation P := (prog trough_vars event).

Definition divide (a b : Q) : P Q :=
  if Qeq_bool b 0 then raise ZeroDivisionError else ret (a / b).

(** [value(self.heat_annual)], the Expression of [build]. *)
Definition value_heat_annual : P Q :=
  b <- gets id ;; divide (heat_annual_scaled b) (heat_annual_scaling b).

(** [value(self.electricity_annual)]. *)
Definition value_electricity_annual : P Q :=
  b <- gets id ;; divide (electricity_annual_scaled b) (electricity_annual_scaling b).

Definition initialize_build (name : string)
    (solver : option string) (optarg : option Optarg) : P unit :=
  b <- gets id ;;
  emit (SurrogateEvaluated (heat_load b) (hours_storage b)) ;;
  let init_output := evaluate_surrogate (heat_load b) (hours_storage b) in
  modify (set_heat_annual_scaled (fst init_output)) ;;
  modify (set_electricity_annual_scaled (snd init_output)) ;;
  ha <- value_heat_annual ;;
  modify (set_heat (ha / 8766)) ;;
  ea <- value_electricity_annual ;;
  modify (set_electricity (ea / 8766)) ;;
  let opt := get_solver solver optarg in
  res <- (fun b => let '(r, b') := opt_solve opt b in (Return r, b', [LocalSolve])) ;;
  emit (InfoHigh ("Initialization Step 2 " ++ condition res)) ;;
  if negb (check_optimal_termination res) then
    raise (InitializationError (failed_to_initialize name))
  else
    emit (Info ("Initialization Complete: " ++ condition res)).

(** The block as the solve receives it, when both scaling parameters are
    non-zero: the surrogate's outputs and the hourly rates are set. *)
Definition warm_start (b : trough_vars) : trough_vars :=
  let init_output := evaluate_surrogate (heat_load b) (hours_storage b) in
  let b1 := set_electricity_annual_scaled (snd init_output)
              (set_heat_annual_scaled (fst init_output) b) in
  let b2 := set_heat (heat_annual_scaled b1 / heat_annual_scaling b1 / 8766) b1 in
  set_electricity
    (electricity_annual_scaled b2 / electricity_annual_scaling b2 / 8766) b2.

(** C4: [initialize_build] raises [InitializationError], with the message
    that names the unit, exactly when its one local solve ran and did not
    end optimally.  The solver is called at most once (once when the
    scaling parameters are non-zero), the error leaves the block as that
    solve left it, and nothing follows the error: "Initialization
    Complete" is logged only on success. *)
Theorem initialize_build_error_iff_not_optimal name solver optarg b :
  let run := initialize_build name solver optarg b in
  let res := fst (opt_solve (get_solver solver optarg) (warm_start b)) in
  (result_of run = Raise (InitializationError (failed_to_initialize name))
     <-> (count_events is_solve (trace_of run) = 1%nat /\
          check_optimal_termination res = false)) /\
  (forall msg, result_of run = Raise (InitializationError msg) ->
               msg = failed_to_initialize name) /\
  (count_events is_solve (trace_of run) <= 1)%nat /\
  (~ heat_annual_scaling b == 0 -> ~ electricity_annual_scaling b == 0 ->
     count_events is_solve (trace_of run) = 1%nat /\
     state_of run = snd (opt_solve (get_solver solver optarg) (warm_start b))) /\
  (count_events is_complete (trace_of run) =
     if raised (result_of run) then 0%nat else 1%nat).
Proof.
  cbv zeta.
  unfold initialize_build, value_heat_annual, value_electricity_annual, divide,
    bind, gets, modify, emit, raise, ret, result_of, state_of, trace_of, id,
    count_events.
  simpl.
  destruct (Qeq_bool (heat_annual_scaling b) 0) eqn:Eh.
  { apply Qeq_bool_iff in Eh. simpl.
    repeat split; try discriminate; try lia; try tauto;
      try (intros [H _]; discriminate H). }
  simpl.
  destruct (Qeq_bool (electricity_annual_scaling b) 0) eqn:Ee.
  { apply Qeq_bool_iff in Ee. simpl.
    repeat split; try discriminate; try lia; try tauto;
      try (intros [H _]; discriminate H). }
  simpl.
  change (set_electricity _ _) with (warm_start b).
  destruct (opt_solve (get_solver solver optarg) (warm_start b)) as [res b'].
  simpl.
  destruct (check_optimal_termination res); simpl;
    repeat split; try discriminate; try lia; try reflexivity; try tauto;
    try (intros [_ H]; discriminate H);
    try (intros msg H; injection H as <-; reflexivity).
Qed.

(** X5: the starting point [initialize_build] hands to the solver
    satisfies [heat_constraint] and [electricity_constraint] of [build]
    when one hour is 1/8766 of a year (a year of 365.25 days): the hourly
    rates it sets are the annual values over 8766.  For a non-zero annual
    heat no other length of the year makes the heat constraint hold
    there. *)
Theorem warm_start_satisfies_rate_constraints b hour_in_years :
  ~ heat_annual_scaling b == 0 ->
  ~ electricity_annual_scaling b == 0 ->
  (hour_in_years == 1 / 8766 ->
     heat_constraint hour_in_years (warm_start b) /\
     electricity_constraint hour_in_years (warm_start b)) /\
  (~ heat_annual (warm_start b) == 0 ->
     heat_constraint hour_in_years (warm_start b) ->
     hour_in_years == 1 / 8766).
Proof.
  intros Hh He. unfold heat_constraint, electricity_constraint, heat_annual,
    electricity_annual, warm_start. simpl.
  set (hs := fst (evaluate_surrogate (heat_load b) (hours_storage b))).
  set (es := snd (evaluate_surrogate (heat_load b) (hours_storage b))).
  split.
  - intros Hf. rewrite Hf. split; field; assumption.
  - intros Hnz Hc.
    set (x := hs / heat_annual_scaling b) in *.
    assert (Hx : x * (hour_in_years - 1 / 8766) == 0).
    { transitivity (x * hour_in_years - x / 8766); [field|].
      rewrite <- Hc. ring. }
    apply Qmult_integral in Hx as [Hx|Hx]; [contradiction|].
    lra.
Qed.

End Initialize.

Lemma warm_start_satisfies_rate_constraints_witness :
  heat_constraint (1 / 8766) (warm_start sample_surrogate sample_block) /\
  heat (warm_start sample_surrogate sample_block) == 10.
Proof.
  destruct (warm_start_satisfies_rate_constraints sample_surrogate sample_block
              (1 / 8766)) as [H _]; [discriminate | discriminate |].
  destruct (H ltac:(reflexivity)) as [Hh _].
  split; [exact Hh | reflexivity].
Defined.

(** *** Properties of [calculate_scaling_factors] *)
Section ScalingFacts.

Lemma for_each_block_run l : forall t,
  result_of (for_each_block l t) = Return tt /\
  state_of (for_each_block l t) = foldl fill_default t l.
Proof.
  induction l as [|[[c d] w] l IH]; intros t; [split; reflexivity|].
  cbn [for_each_block]. unfold bind, default_scaling_factor, get_scaling_factor,
    set_scaling_factor. cbn [foldl]. unfold fill_default at 2. cbn [fst snd].
  destruct (t !! c) as [x|] eqn:E.
  - destruct (IH t) as [Hr Hs].
    destruct (for_each_block l t) as [[r s'] tr]. cbn in *. split; assumption.
  - cbn [default from_option id].
    destruct (IH (<[c := d]> t)) as [Hr Hs].
    destruct (for_each_block l (<[c := d]> t)) as [[r s'] tr]. cbn in *.
    split; assumption.
Qed.

(** A factor that is set stays as it is. *)
Lemma foldl_fill_default_keeps l : forall t c x,
  t !! c = Some x -> foldl fill_default t l !! c = Some x.
Proof.
  induction l as [|block l IH]; intros t c x H; [exact H|].
  cbn [foldl]. apply IH. unfold fill_default.
  destruct (t !! fst (fst block)) eqn:E; [exact H|].
  rewrite lookup_insert_ne; [exact H|]. intros Heq. congruence.
Qed.

Lemma foldl_fill_default_other l : forall t c,
  ~ In c (map (fun b => fst (fst b)) l) ->
  foldl fill_default t l !! c = t !! c.
Proof.
  induction l as [|block l IH]; intros t c Hn; [reflexivity|].
  cbn [foldl]. simpl in Hn. rewrite IH by tauto. unfold fill_default.
  destruct (t !! fst (fst block)) eqn:E; [reflexivity|].
  apply lookup_insert_ne. intros Heq. apply Hn. left. exact Heq.
Qed.

Lemma foldl_fill_default_sets l : forall t c d w,
  NoDup (map (fun b => fst (fst b)) l) ->
  In (c, d, w) l ->
  foldl fill_default t l !! c = Some (default d (t !! c)).
Proof.
  induction l as [|block l IH]; intros t c d w Hnd Hin; [destruct Hin|].
  cbn [map] in Hnd. apply NoDup_cons in Hnd as [Hfresh Hnd].
  cbn [foldl]. destruct Hin as [->|Hin].
  - cbn [fst] in Hfresh. unfold fill_default at 2. cbn [fst snd].
    destruct (t !! c) as [x|] eqn:E; cbn [default from_option id].
    + apply foldl_fill_default_keeps. exact E.
    + apply foldl_fill_default_keeps. apply lookup_insert_eq.
  - rewrite (IH _ c d w Hnd Hin). f_equal. f_equal.
    unfold fill_default. destruct (t !! fst (fst block)) eqn:E; [reflexivity|].
    apply lookup_insert_ne. intros Heq. apply Hfresh. rewrite Heq.
    apply list_elem_of_In. apply in_map_iff. exists (c, d, w). split; [reflexivity|].
    exact Hin.
Qed.

(** When every factor of the list is set, the blocks change nothing. *)
Lemma foldl_fill_default_id l : forall t,
  (forall block, In block l -> is_Some (t !! fst (fst block))) ->
  foldl fill_default t l = t.
Proof.
  induction l as [|block l IH]; intros t Hall; [reflexivity|].
  cbn [foldl]. unfold fill_default at 2.
  destruct (Hall block (or_introl eq_refl)) as [x ->].
  apply IH. intros b Hb. apply Hall. right. exact Hb.
Qed.

(** ... and nothing is logged. *)
Lemma for_each_block_id l : forall t,
  (forall block, In block l -> is_Some (t !! fst (fst block))) ->
  for_each_block l t = (Return tt, t, []).
Proof.
  induction l as [|[[c d] w] l IH]; intros t Hall; [reflexivity|].
  cbn [for_each_block]. unfold bind, default_scaling_factor, get_scaling_factor.
  destruct (Hall (c, d, w) (or_introl eq_refl)) as [x Hx]. cbn [fst] in Hx.
  rewrite Hx. rewrite IH; [reflexivity|].
  intros b Hb. apply Hall. right. exact Hb.
Qed.

Lemma scaling_defaults_NoDup : NoDup (map (fun b => fst (fst b)) scaling_defaults).
Proof. apply (bool_decide_unpack _). vm_compute. exact I. Qed.

(** X6: [calculate_scaling_factors] only fills gaps.  It always returns; a
    scaling factor that is already set is kept, whatever the component;
    each of its eight components ends with its old factor if it had one
    and with the default of its block if not; no other component gets a
    factor; and running it again changes nothing and warns of nothing. *)
Theorem calculate_scaling_factors_fills_gaps (t : gmap string Q) :
  let t' := state_of (calculate_scaling_factors t) in
  result_of (calculate_scaling_factors t) = Return tt /\
  (forall c x, t !! c = Some x -> t' !! c = Some x) /\
  (forall c d w, In (c, d, w) scaling_defaults ->
     t' !! c = Some (default d (t !! c))) /\
  (forall c, ~ In c (map (fun b => fst (fst b)) scaling_defaults) ->
     t' !! c = t !! c) /\
  calculate_scaling_factors t' = (Return tt, t', []).
Proof.
  cbv zeta. unfold calculate_scaling_factors.
  destruct (for_each_block_run scaling_defaults t) as [Hr Hs].
  rewrite Hs. split; [exact Hr|].
  split; [intros c x; apply foldl_fill_default_keeps|].
  split; [intros c d w; apply foldl_fill_default_sets; exact scaling_defaults_NoDup|].
  split; [intros c; apply foldl_fill_default_other|].
  apply for_each_block_id. intros [[c d] w] Hin. cbn [fst].
  rewrite (foldl_fill_default_sets scaling_defaults t c d w
             scaling_defaults_NoDup Hin).
  eexists. reflexivity.
Qed.

End ScalingFacts.

End TroughSurrogate.

(** * permian/data/pysam_run_permian_trough.py *)
Module PySAMTrough.

Local Open Scope Q_scope.

(** A Python float: a number, an infinity or [nan].  Numbers are exact;
    rounding and overflow are left out. *)
Inductive pyfloat : Type :=
| Fin (x : Q)
| PInf
| NInf
| NaN.

Definition isnan (f : pyfloat) : bool :=
  match f with NaN => true | _ => false end.

Definition isfinite (f : pyfloat) : bool :=
  match f with Fin _ => true | _ => false end.

(** The infinity of the sign of [positive]. *)
Definition inf (positive : bool) : pyfloat := if positive then PInf else NInf.

Definition fadd (a b : pyfloat) : pyfloat :=
  match a, b with
  | Fin x, Fin y => Fin (x + y)
  | NaN, _ | _, NaN => NaN
  | PInf, NInf | NInf, PInf => NaN
  | PInf, _ | _, PInf => PInf
  | NInf, _ | _, NInf => NInf
  end.
Definition fsub (a b : pyfloat) : pyfloat :=
  match a, b with
  | Fin x, Fin y => Fin (x - y)
  | NaN, _ | _, NaN => NaN
  | PInf, PInf | NInf, NInf => NaN
  | PInf, _ | _, NInf => PInf
  | NInf, _ | _, PInf => NInf
  end.
Definition fmul (a b : pyfloat) : pyfloat :=
  match a, b with
  | Fin x, Fin y => Fin (x * y)
  | NaN, _ | _, NaN => NaN
  | PInf, PInf | NInf, NInf => PInf
  | PInf, NInf | NInf, PInf => NInf
  | PInf, Fin y | Fin y, PInf =>
      if Qeq_bool y 0 then NaN else inf (Qle_bool 0 y)
  | NInf, Fin y | Fin y, NInf =>
      if Qeq_bool y 0 then NaN else inf (negb (Qle_bool 0 y))
  end.
(** Float division raises on a zero divisor, whatever the dividend. *)
Definition fdiv (a b : pyfloat) : outcome pyfloat :=
  match b with
  | NaN => Return NaN
  | Fin y =>
      if Qeq_bool y 0 then Raise ZeroDivisionError
      else match a with
           | Fin x => Return (Fin (x / y))
           | PInf => Return (inf (Qle_bool 0 y))
           | NInf => Return (inf (negb (Qle_bool 0 y)))
           | NaN => Return NaN
           end
  | PInf | NInf =>
      match a with
      | Fin _ => Return (Fin 0)
      | _ => Return NaN
      end
  end.

(** Finite and non-negative. *)
Definition nonneg (f : pyfloat) : Prop :=
  match f with Fin x => 0 <= x | _ => False end.
(** Finite and within [lo, hi]. *)
Definition within (lo hi : Q) (f : pyfloat) : Prop :=
  match f with Fin x => lo <= x /\ x <= hi | _ => False end.

(** A value of a JSON parameter file. *)
Inductive value : Type :=
| VNum (x : pyfloat)
| VText (s : string)
| VTable (rows : list (list Q)).

(** [tech_model.Outputs], as far as [run_model] reads it. *)
Record outputs : Type := {
  out_annual_energy : pyfloat;
  annual_field_freeze_protection : pyfloat;
  annual_tes_freeze_protection : pyfloat;
  annual_electricity_consumption : pyfloat
}.

(** A PySAM module: the (name, value) assignments it accepts, those it
    holds, its weather input and the outputs of its last execution. *)
Record pysam_module : Type := {
  accepts : string -> value -> bool;
  params : gmap string value;
  weather_file_name : option string;
  solar_resource_data : option value;
  Outputs : option outputs
}.

Definition with_params (ps : gmap string value) (m : pysam_module) : pysam_module :=
  {| accepts := accepts m; params := ps;
     weather_file_name := weather_file_name m;
     solar_resource_data := solar_resource_data m; Outputs := Outputs m |}.

Definition with_weather_file (f : string) (m : pysam_module) : pysam_module :=
  {| accepts := accepts m; params := params m;
     weather_file_name := Some f;
     solar_resource_data := solar_resource_data m; Outputs := Outputs m |}.

Definition with_weather_data (d : value) (m : pysam_module) : pysam_module :=
  {| accepts := accepts m; params := params m;
     weather_file_name := weather_file_name m;
     solar_resource_data := Some d; Outputs := Outputs m |}.

Definition with_outputs (o : outputs) (m : pysam_module) : pysam_module :=
  {| accepts := accepts m; params := params m;
     weather_file_name := weather_file_name m;
     solar_resource_data := solar_resource_data m; Outputs := Some o |}.

(** [module.value(k, v)]: assigns, or raises when the module refuses. *)
Definition value_set (m : pysam_module) (k : string) (v : value) : option pysam_module :=
  if accepts m k v then Some (with_params (<[k := v]> (params m)) m) else None.

(** [module.value(k)] read as a float. *)
Definition value_get (m : pysam_module) (k : string) : outcome pyfloat :=
  match params m !! k with
  | Some (VNum x) => Return x
  | Some _ => Raise (External "TypeError")
  | None => Raise (External "AttributeError")
  end.

Inductive event : Type :=
| MissingValue (i : nat) (k : string)
| Executed.

Definition config := list (string * value).

Definition config_error : string :=
  "Either file_names or module_data must be assigned.".
Definition weather_error : string :=
  "Either weather_file or weather_data must be specified.".

(** The dictionary [run_model] returns. *)
Record result : Type := {
  annual_energy : pyfloat;
  freeze_protection : pyfloat;
  capacity_factor : pyfloat;
  electrical_load : pyfloat
}.

(** [np.linspace(start, stop, num)]: [num] evenly spaced samples, both ends
    included. *)
Definition linspace (start stop : Q) (num : nat) : list Q :=
  match num with
  | 0%nat => []
  | 1%nat => [start]
  | _ => let step := (stop - start) / inject_Z (Z.of_nat (num - 1)) in
         map (fun i => start + inject_Z (Z.of_nat i) * step) (seq 0 num)
  end.

(** [itertools.product(xs, ys)]: the last factor varies fastest. *)
Definition product {A B} (xs : list A) (ys : list B) : list (A * B) :=
  flat_map (fun x => map (pair x) ys) xs.

(** Splitting into chunks of [n] items, as the pool hands tasks out. *)
Fixpoint chunks_upto {A} (fuel n : nat) (l : list A) : list (list A) :=
  match fuel with
  | 0%nat => []
  | S fuel' =>
      match l with
      | [] => []
      | _ => take n l :: chunks_upto fuel' n (drop n l)
      end
  end.
Definition chunks {A} (n : nat) (l : list A) : list (list A) :=
  chunks_upto (List.length l) n l.

(** The chunk size [Pool.map] and [Pool.starmap] choose by default. *)
Definition chunksize (len processes : nat) : nat :=
  let q := (len / (processes * 4))%nat in
  if (len mod (processes * 4) =? 0)%nat then q else S q.

(** All the results, or the first exception in the order of the tasks. *)
Fixpoint collect {B} (rs : list (outcome B)) : outcome (list B) :=
  match rs with
  | [] => Return []
  | Raise e :: _ => Raise e
  | Return b :: rs' =>
      match collect rs' with
      | Return bs => Return (b :: bs)
      | Raise e => Raise e
      end
  end.

(** [multiprocessing.Pool(processes).starmap(f, args)]: every chunk is
    mapped by some worker, each task on its own; the results come back in
    the order of [args]. *)
Definition starmap {A B} (processes : nat) (f : A -> outcome B) (args : list A)
  : outcome (list B) :=
  collect (concat (map (map f) (chunks (chunksize (List.length args) processes) args))).

(** [pd.concat([left, right], axis=1)] on two frames with the default
    index: row [i] holds what either frame has at [i]. *)
Definition concat_columns {A B} (left : list A) (right : list B)
  : list (option A * option B) :=
  map (fun i => (left !! i, right !! i))
      (seq 0 (Nat.max (List.length left) (List.length right))).


(** Two input pairs are the same key when their numbers are equal. *)
Definition key_eq (a b : Q * Q) : Prop := fst a == fst b /\ snd a == snd b.
Definition key_eqb (a b : Q * Q) : bool :=
  Qeq_bool (fst a) (fst b) && Qeq_bool (snd a) (snd b).

Fixpoint distinct_keys (l : list (Q * Q)) : bool :=
  match l with
  | [] => true
  | a :: l' => negb (existsb (key_eqb a) l') && distinct_keys l'
  end.

(** The integers [first, first + 1, ...], [count] of them, as floats. *)
Definition integers_from (first : nat) (count : nat) : list Q :=
  map (fun i => inject_Z (Z.of_nat i)) (seq first count).

Fixpoint all_Qeq (xs ys : list Q) : bool :=
  match xs, ys with
  | [], [] => true
  | x :: xs', y :: ys' => Qeq_bool x y && all_Qeq xs' ys'
  | _, _ => false
  end.

(** Sequencing of computations that return or raise, without state. *)
Definition and_then {A B} (r : outcome A) (k : A -> outcome B) : outcome B :=
  match r with
  | Return a => k a
  | Raise e => Raise e
  end.

(** [tes_cost(tech_model)], with [STORAGE_COST_SPECIFIC = 62]. *)
Definition tes_cost (tech_model : pysam_module) : outcome pyfloat :=
  let STORAGE_COST_SPECIFIC := Fin 62 in
  and_then (value_get tech_model "q_pb_design") (fun q =>
  and_then (value_get tech_model "tshours") (fun tshours =>
  let tes_thermal_capacity := fmul (fmul q (Fin 1000)) tshours in
  Return (fmul tes_thermal_capacity STORAGE_COST_SPECIFIC))).

(** [system_capacity(tech_model)], in kW. *)
Definition system_capacity (tech_model : pysam_module) : outcome pyfloat :=
  and_then (value_get tech_model "q_pb_design") (fun q =>
  and_then (value_get tech_model "specified_solar_multiple") (fun sm =>
  Return (fmul (fmul q sm) (Fin 1000)))).

(** The columns of the data frame of the sweep: those of
    [pd.DataFrame(arguments, columns=[...])] followed by the four selected
    from [df_results]. *)
Definition dataset_columns : list string :=
  ["heat_load"; "hours_storage"; "annual_energy"; "freeze_protection";
   "capacity_factor"; "electrical_load"]%string.

(** [df.columns[i]]: a Python index, counted from the end when negative. *)
Definition column_at (columns : list string) (i : Z) : outcome string :=
  let n := Z.of_nat (List.length columns) in
  let j := (if i <? 0 then n + i else i)%Z in
  if ((0 <=? j) && (j <? n))%Z then
    match columns !! Z.to_nat j with
    | Some c => Return c
    | None => Raise (External "IndexError")
    end
  else Raise (External "IndexError").

(** [plot_3d(df, x_index, y_index, z_index)] up to its call of [df.pivot]:
    the names of the index, columns and values of the pivot table, in the
    order the call evaluates them.  What follows is drawing. *)
Definition plot_3d (columns : list string) (x_index y_index z_index : Z)
  : outcome (string * string * string) :=
  and_then (column_at columns y_index) (fun y =>
  and_then (column_at columns x_index) (fun x =>
  and_then (column_at columns z_index) (fun z =>
  Return (y, x, z)))).

(** The module after the assignments [run_model] starts with, when the
    module accepts them. *)
Definition assigned (heat_load hours_storage : option Q) (m : pysam_module)
  : option pysam_module :=
  match match heat_load with
        | Some h => value_set m "q_pb_design" (VNum (Fin h))
        | None => Some m
        end with
  | None => None
  | Some m1 =>
      match hours_storage with
      | Some h => value_set m1 "tshours" (VNum (Fin h))
      | None => Some m1
      end
  end.

(** One pair of a parameter source applied to a module. *)
Definition apply_pair (m : pysam_module) (kv : string * value) : pysam_module :=
  if String.eqb (fst kv) "number_inputs" then m
  else default m (value_set m (fst kv) (snd kv)).

(** Concrete modules and simulator outputs for the examples below. *)

(** A module that accepts every assignment and holds none yet. *)
Definition open_module : pysam_module :=
  {| accepts := fun _ _ => true; params := ∅;
     weather_file_name := None; solar_resource_data := None; Outputs := None |}.

(** A module that only knows [q_pb_design] and [tshours]. *)
Definition strict_module : pysam_module :=
  {| accepts := fun k _ => String.eqb k "q_pb_design" || String.eqb k "tshours";
     params := ∅;
     weather_file_name := None; solar_resource_data := None; Outputs := None |}.

(** A year at half of the design output, the field's freeze protection
    reported as [nan]. *)
Definition half_load_outputs : outputs :=
  {| out_annual_energy := Fin 4380000;
     annual_field_freeze_protection := NaN;
     annual_tes_freeze_protection := Fin 0;
     annual_electricity_consumption := Fin 1000 |}.

(** A year in which the field delivers nothing and freeze protection
    takes 1 kWh. *)
Definition frozen_outputs : outputs :=
  {| out_annual_energy := Fin 0;
     annual_field_freeze_protection := Fin 1;
     annual_tes_freeze_protection := NaN;
     annual_electricity_consumption := Fin 0 |}.

Definition no_files : string -> option config := fun _ => None.

(** What [run_model] returns for [frozen_outputs] at 1 MWt without
    storage, and what [setup_and_run] returns for [half_load_outputs]. *)
Definition frozen_result : result :=
  {| annual_energy := Fin (-1); freeze_protection := Fin 1;
     capacity_factor := Fin (-100 # 8760000); electrical_load := Fin 0 |}.
Definition half_load_result : result :=
  {| annual_energy := Fin 4380000; freeze_protection := Fin 0;
     capacity_factor := Fin (438000000 # 8760000); electrical_load := Fin 1000 |}.

(** A dictionary with a key the strict module knows, the key
    [number_inputs] and a key it does not know. *)
Definition sample_config : config :=
  [("tshours"%string, VNum (Fin 6));
   ("number_inputs"%string, VNum (Fin 2));
   ("unknown_key"%string, VText "x")].

Section Run.
(** [read_module_datafile]: the parsed file, or nothing when reading or
    parsing fails. *)
Variable read_module_datafile : string -> option config.
(** [iph.new()]: a fresh default module. *)
Variable new_module : pysam_module.
(** [tech_model.execute()]: the simulation, or nothing when it raises. *)
Variable execute : pysam_module -> option outputs.

Local Open Scope prog_scope.
Local Open Scope Q_scope.

(** The inner loop of [load_config] for module [i]: a refused assignment
    appends the key to [missing_values], logged as [MissingValue]. *)
Fixpoint load_items (i : nat) (data : config)
  : prog (list pysam_module) event unit :=
  match data with
  | [] => ret tt
  | (k, v) :: data' =>
      (if negb (String.eqb k "number_inputs") then
         fun modules =>
           match modules !! i with
           | Some m =>
               match value_set m k v with
               | Some m' => (Return tt, <[i := m']> modules, [])
               | None => (Return tt, modules, [MissingValue i k])
               end
           | None => (Return tt, modules, [MissingValue i k])
           end
       else ret tt) ;;
      load_items i data'
  end.

(** The choice of the parameter source for module [i]. *)
Definition load_data (i : nat) (file_names : option (list string))
    (module_data : option (list config))
  : prog (list pysam_module) event config :=
  fun modules =>
    match file_names with
    | Some fns =>
        if (List.length fns =? List.length modules)%nat then
          match fns !! i with
          | Some f =>
              match read_module_datafile f with
              | Some data => (Return data, modules, [])
              | None => (Raise (External "read_module_datafile"), modules, [])
              end
          | None => (Raise (External "IndexError"), modules, [])
          end
        else (Raise AssertionError, modules, [])
    | None =>
        match module_data with
        | Some mds =>
            if (List.length mds =? List.length modules)%nat then
              match mds !! i with
              | Some data => (Return data, modules, [])
              | None => (Raise (External "IndexError"), modules, [])
              end
            else (Raise AssertionError, modules, [])
        | None => (Raise (Exception config_error), modules, [])
        end
    end.

Fixpoint load_config_loop (indices : list nat) (file_names : option (list string))
    (module_data : option (list config))
  : prog (list pysam_module) event unit :=
  match indices with
  | [] => ret tt
  | i :: rest =>
      data <- load_data i file_names module_data ;;
      load_items i data ;;
      load_config_loop rest file_names module_data
  end.

(** [load_config(modules, file_names, module_data)], [modules] being the
    state. *)
Definition load_config (file_names : option (list string))
    (module_data : option (list config))
  : prog (list pysam_module) event unit :=
  n <- gets List.length ;;
  load_config_loop (seq 0 n) file_names module_data.

Definition setup_model (model_name : string)
    (weather_file : option string) (weather_data : option value)
    (config_files : option (list string)) (config_data : option (list config))
  : outcome pysam_module :=
  let tech_model := new_module in
  match load_config config_files config_data [tech_model] with
  | (Raise e, _, _) => Raise e
  | (Return _, modules, _) =>
      match modules !! 0%nat with
      | None => Raise (External "IndexError")
      | Some tech_model =>
          match weather_file, weather_data with
          | Some f, _ => Return (with_weather_file f tech_model)
          | None, Some d => Return (with_weather_data d tech_model)
          | None, None => Raise (Exception weather_error)
          end
      end
  end.

Definition lift {S A} (r : outcome A) : prog S event A :=
  fun s => (r, s, []).

(** [tech_model.value(k, v)] outside a [try]. *)
Definition assign (k : string) (v : value) : prog pysam_module event unit :=
  fun m =>
    match value_set m k v with
    | Some m' => (Return tt, m', [])
    | None => (Raise (External "value"), m, [])
    end.

Definition run_execute : prog pysam_module event outputs :=
  fun m =>
    match execute m with
    | Some o => (Return o, with_outputs o m, [Executed])
    | None => (Raise (External "execute"), m, [Executed])
    end.

Definition run_model (heat_load hours_storage : option Q)
  : prog pysam_module event result :=
  match heat_load with
  | Some h => assign "q_pb_design" (VNum (Fin h))
  | None => ret tt
  end ;;
  match hours_storage with
  | Some h => assign "tshours" (VNum (Fin h))
  | None => ret tt
  end ;;
  out <- run_execute ;;
  let freeze_protection_field := annual_field_freeze_protection out in
  let freeze_protection_field :=
    if isnan freeze_protection_field then Fin 0 else freeze_protection_field in
  let freeze_protection_tes := annual_tes_freeze_protection out in
  let freeze_protection_tes :=
    if isnan freeze_protection_tes then Fin 0 else freeze_protection_tes in
  let freeze_protection := fadd freeze_protection_field freeze_protection_tes in
  let annual_energy := fsub (out_annual_energy out) freeze_protection in
  q_pb_design <- (fun m => (value_get m "q_pb_design", m, [])) ;;
  ratio <- lift (fdiv annual_energy (fmul (fmul q_pb_design (Fin 1000)) (Fin 8760))) ;;
  let capacity_factor := fmul ratio (Fin 100) in
  let electrical_load := annual_electricity_consumption out in
  ret {| annual_energy := annual_energy;
         freeze_protection := freeze_protection;
         capacity_factor := capacity_factor;
         electrical_load := electrical_load |}.

Definition setup_and_run (model_name : string) (weather_file : string)
    (config_data : list config) (heat_load hours_storage : Q) : outcome result :=
  match setup_model model_name (Some weather_file) None None (Some config_data) with
  | Raise e => Raise e
  | Return modules => result_of (run_model (Some heat_load) (Some hours_storage) modules)
  end.

Definition heat_loads : list Q := linspace 1 50 50.
Definition hours_storages : list Q := linspace 0 24 25.
Definition arguments : list (Q * Q) := product heat_loads hours_storages.
Definition pool_processes : nat := 6.

(** The data frame the script pickles: a row per index, the pair of
    inputs and the result of its run. *)
Definition sweep (model_name weather_file : string) (config_data : list config)
  : outcome (list (option (Q * Q) * option result)) :=
  match starmap pool_processes
          (fun args => setup_and_run model_name weather_file config_data
                         (fst args) (snd args))
          arguments with
  | Raise e => Raise e
  | Return results => Return (concat_columns arguments results)
  end.

(** [0 if isnan(x) else x] *)
Definition nan_to_zero (f : pyfloat) : pyfloat :=
  if isnan f then Fin 0 else f.

(** The module as [execute] receives it in [run_model h s]. *)
Definition configured (m : pysam_module) (h s : Q) : pysam_module :=
  with_params (<["tshours"%string := VNum (Fin s)]>
                 (<["q_pb_design"%string := VNum (Fin h)]> (params m))) m.

(** The pairs of a parameter source that end in [missing_values]. *)
Definition refused (m : pysam_module) (kv : string * value) : bool :=
  negb (String.eqb (fst kv) "number_inputs") && negb (accepts m (fst kv) (snd kv)).

Definition missing_values (m : pysam_module) (data : config) : list string :=
  map fst (List.filter (refused m) data).

(** The module once the pairs it accepts are assigned, the others skipped. *)
Definition apply_config (m : pysam_module) (data : config) : pysam_module :=
  foldl (fun m kv =>
           if String.eqb (fst kv) "number_inputs" then m
           else default m (value_set m (fst kv) (snd kv))) m data.

(** The parameter source of module [i], when there is one to read. *)
Definition chosen_data (file_names : option (list string))
    (module_data : option (list config)) (i : nat) : option config :=
  match file_names with
  | Some fns => match fns !! i with
                | Some f => read_module_datafile f
                | None => None
                end
  | None => match module_data with
            | Some mds => mds !! i
            | None => None
            end
  end.

(** The supplied source has one entry per module. *)
Definition lengths_agree (file_names : option (list string))
    (module_data : option (list config)) (n : nat) : Prop :=
  match file_names with
  | Some fns => List.length fns = n
  | None => match module_data with
            | Some mds => List.length mds = n
            | None => False
            end
  end.

(** *** Properties of [run_model] *)

Lemma ratio_bounds net d :
  0 < d ->
  (0 <= net / d * 100 /\ net / d * 100 <= 100) <-> (0 <= net /\ net <= d).
Proof.
  intros Hd.
  assert (Hnz : ~ d == 0) by (intros E; rewrite E in Hd; apply (Qlt_irrefl 0 Hd)).
  set (r := net / d).
  assert (Hr : net == r * d) by (unfold r; field; exact Hnz).
  rewrite Hr. split; intros [H1 H2]; split; nra.
Qed.

Lemma run_model_returns m h s o :
  accepts m "q_pb_design" (VNum (Fin h)) = true ->
  accepts m "tshours" (VNum (Fin s)) = true ->
  execute (configured m h s) = Some o ->
  ~ h == 0 ->
  let fp := fadd (nan_to_zero (annual_field_freeze_protection o))
                 (nan_to_zero (annual_tes_freeze_protection o)) in
  let net := fsub (out_annual_energy o) fp in
  exists ratio,
    fdiv net (Fin (h * 1000 * 8760)) = Return ratio /\
    run_model (Some h) (Some s) m
    = (Return {| annual_energy := net; freeze_protection := fp;
                 capacity_factor := fmul ratio (Fin 100);
                 electrical_load := annual_electricity_consumption o |},
       with_outputs o (configured m h s), [Executed]).
Proof.
  intros Hq Ht Hex Hh fp net.
  assert (Hnz : Qeq_bool (h * 1000 * 8760) 0 = false).
  { destruct (Qeq_bool (h * 1000 * 8760) 0) eqn:E; [|reflexivity].
    apply Qeq_bool_iff in E. exfalso. apply Hh.
    apply Qmult_integral in E as [E|E]; [|discriminate E].
    apply Qmult_integral in E as [E|E]; [exact E | discriminate E]. }
  assert (Hdiv : exists ratio, fdiv net (Fin (h * 1000 * 8760)) = Return ratio).
  { unfold fdiv. rewrite Hnz. destruct net; eexists; reflexivity. }
  destruct Hdiv as [ratio Hdiv]. exists ratio. split; [exact Hdiv|].
  unfold run_model, bind, assign, run_execute, lift, ret, value_set.
  rewrite Hq. cbn [accepts with_params]. rewrite Ht.
  change (with_params _ (with_params _ m)) with (configured m h s).
  cbn [app]. rewrite Hex.
  unfold value_get. cbn [params with_outputs configured with_params].
  rewrite lookup_insert_ne by discriminate. rewrite lookup_insert_eq.
  cbn [fmul]. fold (nan_to_zero (annual_field_freeze_protection o)).
  fold (nan_to_zero (annual_tes_freeze_protection o)). fold fp. fold net.
  rewrite Hdiv. reflexivity.
Qed.

(** X15: what [run_model] computes from finite simulator outputs, for a
    positive heat load the module accepts: the simulator's annual energy
    less the freeze protection (a [nan] term counting as 0), the capacity
    factor net energy / (q_pb_design * 1e3 * 8760) * 100, and the
    simulator's electricity consumption as it is.  The capacity factor is
    within [0, 100] exactly when the net energy is within
    [0, q_pb_design * 1e3 * 8760], and the annual energy is non-negative
    exactly when the freeze protection does not exceed the simulator's
    annual energy. *)
Theorem run_model_capacity_factor m h s o E F T :
  accepts m "q_pb_design" (VNum (Fin h)) = true ->
  accepts m "tshours" (VNum (Fin s)) = true ->
  execute (configured m h s) = Some o ->
  0 < h ->
  out_annual_energy o = Fin E ->
  nan_to_zero (annual_field_freeze_protection o) = Fin F ->
  nan_to_zero (annual_tes_freeze_protection o) = Fin T ->
  exists r,
    result_of (run_model (Some h) (Some s) m) = Return r /\
    annual_energy r = Fin (E - (F + T)) /\
    freeze_protection r = Fin (F + T) /\
    capacity_factor r = Fin ((E - (F + T)) / (h * 1000 * 8760) * 100) /\
    electrical_load r = annual_electricity_consumption o /\
    (within 0 100 (capacity_factor r)
       <-> 0 <= E - (F + T) /\ E - (F + T) <= h * 1000 * 8760) /\
    (nonneg (annual_energy r) <-> F + T <= E).
Proof.
  intros Hq Ht Hex Hh HE HF HT.
  assert (Hnz : ~ h == 0) by (intros E0; rewrite E0 in Hh; apply (Qlt_irrefl 0 Hh)).
  destruct (run_model_returns m h s o Hq Ht Hex Hnz) as (ratio & Hdiv & Hrun).
  rewrite Hrun. rewrite HE, HF, HT in Hdiv. cbn [fadd fsub] in Hdiv.
  unfold fdiv in Hdiv.
  destruct (Qeq_bool (h * 1000 * 8760) 0); [discriminate Hdiv|].
  injection Hdiv as <-.
  eexists. split; [reflexivity|]. cbn [annual_energy freeze_protection
    capacity_factor electrical_load]. rewrite HE, HF, HT. cbn [fadd fsub fmul].
  do 4 (split; [reflexivity|]).
  assert (Hd : 0 < h * 1000 * 8760) by nra.
  split.
  - unfold within. apply ratio_bounds. exact Hd.
  - unfold nonneg. split; intros H; lra.
Qed.

(** *** Properties of the parametric sweep *)

Lemma chunks_upto_concat {A} (n : nat) : forall fuel (l : list A),
  (0 < n)%nat -> (List.length l <= fuel)%nat ->
  concat (chunks_upto fuel n l) = l.
Proof.
  induction fuel as [|fuel IH]; intros l Hn Hlen.
  - destruct l; [reflexivity | simpl in Hlen; lia].
  - destruct l as [|a l]; [reflexivity|].
    cbn [chunks_upto concat]. rewrite IH.
    + apply take_drop.
    + exact Hn.
    + rewrite length_drop. simpl in Hlen |- *. lia.
Qed.

Lemma chunksize_pos len processes :
  (0 < len)%nat -> (0 < processes)%nat -> (0 < chunksize len processes)%nat.
Proof.
  intros Hlen Hp. unfold chunksize.
  destruct (len mod (processes * 4) =? 0)%nat eqn:E; [|lia].
  apply Nat.eqb_eq in E.
  pose proof (Nat.div_mod_eq len (processes * 4)) as Hdm.
  destruct (len / (processes * 4))%nat; [|lia].
  rewrite E in Hdm. lia.
Qed.

(** The pool returns what a plain map in the order of the tasks returns. *)
Lemma starmap_collect {A B} processes (f : A -> outcome B) args :
  (0 < processes)%nat ->
  starmap processes f args = collect (map f args).
Proof.
  intros Hp. unfold starmap. f_equal.
  destruct args as [|a args]; [reflexivity|].
  rewrite <- concat_map. f_equal.
  unfold chunks. apply chunks_upto_concat; [|lia].
  apply chunksize_pos; [simpl; lia | exact Hp].
Qed.

Lemma collect_Return {B} (rs : list (outcome B)) : forall bs,
  collect rs = Return bs -> rs = map Return bs.
Proof.
  induction rs as [|r rs IH]; intros bs H.
  - injection H as <-. reflexivity.
  - destruct r as [b|e]; [|discriminate H]. simpl in H.
    destruct (collect rs) as [bs'|e] eqn:E; [|discriminate H].
    injection H as <-. simpl. f_equal. apply IH. reflexivity.
Qed.

Lemma collect_Raise {B} (rs : list (outcome B)) : forall e,
  collect rs = Raise e -> In (Raise e) rs.
Proof.
  induction rs as [|r rs IH]; intros e H; [discriminate H|].
  destruct r as [b|e']; simpl in H.
  - destruct (collect rs) as [bs'|e''] eqn:E; [discriminate H|].
    injection H as <-. right. apply IH. reflexivity.
  - injection H as <-. left. reflexivity.
Qed.

Lemma lookups_of_all {A} (l : list A) :
  map (fun i => l !! i) (seq 0 (List.length l)) = map Some l.
Proof.
  apply list_eq. intros i. rewrite !list_lookup_fmap.
  destruct (decide (i < List.length l)%nat) as [Hlt|Hge].
  - rewrite lookup_seq_lt by exact Hlt. simpl.
    destruct (l !! i) eqn:E; [reflexivity|].
    apply lookup_ge_None in E. lia.
  - rewrite lookup_seq_ge by lia. rewrite (proj2 (lookup_ge_None l i)) by lia.
    reflexivity.
Qed.

Lemma distinct_keys_sound l :
  distinct_keys l = true -> NoDupA key_eq l.
Proof.
  induction l as [|a l IH]; intros H; [constructor|].
  simpl in H. apply andb_prop in H as [Hn Hd]. constructor; [|apply IH; exact Hd].
  intros Hin. apply InA_alt in Hin as (b & [H1 H2] & Hb).
  apply negb_true_iff in Hn.
  assert (existsb (key_eqb a) l = true); [|congruence].
  apply List.existsb_exists. exists b. split; [exact Hb|].
  unfold key_eqb. apply andb_true_intro. split; apply Qeq_bool_iff; assumption.
Qed.

Lemma all_Qeq_sound xs : forall ys,
  all_Qeq xs ys = true -> Forall2 Qeq xs ys.
Proof.
  induction xs as [|x xs IH]; intros [|y ys] H; try discriminate H; constructor.
  - simpl in H. apply andb_prop in H as [H _]. apply Qeq_bool_iff. exact H.
  - simpl in H. apply andb_prop in H as [_ H]. apply IH. exact H.
Qed.

Lemma arguments_length : List.length arguments = 1250%nat.
Proof. vm_compute. reflexivity. Qed.

Lemma arguments_distinct : NoDupA key_eq arguments.
Proof. apply distinct_keys_sound. vm_compute. reflexivity. Qed.

(** Every combination of an integer heat load in 1..50 and an integer
    storage time in 0..24 is among the arguments. *)
Lemma arguments_complete (h s : nat) :
  (1 <= h <= 50)%nat -> (s <= 24)%nat ->
  exists key, In key arguments /\
              key_eq key (inject_Z (Z.of_nat h), inject_Z (Z.of_nat s)).
Proof.
  intros Hh Hs.
  assert (Hall : forallb (fun t => existsb (fun key => key_eqb key t) arguments)
                   (product (integers_from 1 50) (integers_from 0 25)) = true)
    by (vm_compute; reflexivity).
  pose proof (proj1 (List.forallb_forall _ _) Hall
                (inject_Z (Z.of_nat h), inject_Z (Z.of_nat s))) as Hone.
  destruct (proj1 (List.existsb_exists _ _) (Hone ltac:(
    unfold product; apply in_flat_map;
    exists (inject_Z (Z.of_nat h)); split;
    [ apply in_map_iff; exists h; split; [reflexivity | apply in_seq; lia]
    | apply in_map_iff; exists (inject_Z (Z.of_nat s)); split; [reflexivity|];
      apply in_map_iff; exists s; split; [reflexivity | apply in_seq; lia] ])))
    as (key & Hin & Hk).
  exists key. split; [exact Hin|].
  unfold key_eqb in Hk. apply andb_prop in Hk as [H1 H2].
  split; apply Qeq_bool_iff; assumption.
Qed.

(** C6: the sweep's inputs are the 50 heat loads 1, 2, ..., 50 and the 25
    storage times 0, 1, ..., 24, combined as a Cartesian product of 1250
    pairwise distinct pairs that leaves no combination out; the pool has
    6 workers; when every run returns, the data frame has 1250 rows, row
    [i] holding the [i]th pair and the result of the run on that pair;
    when a run raises, the sweep raises that exception and there is no
    data frame. *)
Theorem sweep_dataset model_name weather_file config_data :
  let run := setup_and_run model_name weather_file config_data in
  Forall2 Qeq heat_loads (integers_from 1 50) /\
  Forall2 Qeq hours_storages (integers_from 0 25) /\
  arguments = product heat_loads hours_storages /\
  List.length arguments = 1250%nat /\
  NoDupA key_eq arguments /\
  (forall h s : nat, (1 <= h <= 50)%nat -> (s <= 24)%nat ->
     exists key, In key arguments /\
                 key_eq key (inject_Z (Z.of_nat h), inject_Z (Z.of_nat s))) /\
  pool_processes = 6%nat /\
  match sweep model_name weather_file config_data with
  | Raise e => exists key, In key arguments /\ run (fst key) (snd key) = Raise e
  | Return df =>
      List.length df = 1250%nat /\
      map fst df = map Some arguments /\
      (forall i key, arguments !! i = Some key ->
         exists r, df !! i = Some (Some key, Some r) /\
                   run (fst key) (snd key) = Return r)
  end.
Proof.
  intros run.
  split; [apply all_Qeq_sound; vm_compute; reflexivity|].
  split; [apply all_Qeq_sound; vm_compute; reflexivity|].
  split; [reflexivity|].
  split; [exact arguments_length|].
  split; [exact arguments_distinct|].
  split; [exact arguments_complete|].
  split; [reflexivity|].
  unfold sweep. rewrite starmap_collect by (unfold pool_processes; lia).
  fold run.
  destruct (collect (map (fun args => run (fst args) (snd args)) arguments))
    as [results|e] eqn:Ecol.
  - apply collect_Return in Ecol.
    assert (Hlen : List.length results = List.length arguments).
    { apply (f_equal (@List.length _)) in Ecol. rewrite !length_map in Ecol.
      symmetry. exact Ecol. }
    unfold concat_columns. rewrite Hlen, Nat.max_id.
    split; [rewrite length_map, length_seq; exact arguments_length|].
    split.
    + rewrite map_map. cbn [fst]. apply lookups_of_all.
    + intros i key Hi.
      assert (Hlt : (i < List.length arguments)%nat)
        by (apply lookup_lt_is_Some; eexists; exact Hi).
      pose proof (f_equal (fun l => l !! i) Ecol) as Hrow. cbn beta in Hrow.
      rewrite !list_lookup_fmap, Hi in Hrow. cbn [fmap option_fmap option_map] in Hrow.
      destruct (results !! i) as [r|] eqn:Er; [|discriminate Hrow].
      injection Hrow as Hrun. exists r. split; [|exact Hrun].
      rewrite list_lookup_fmap, lookup_seq_lt by exact Hlt.
      change (Some (arguments !! i, results !! i) = Some (Some key, Some r)).
      rewrite Hi, Er. reflexivity.
  - apply collect_Raise in Ecol. apply in_map_iff in Ecol as (key & Hk & Hin).
    exists key. split; [exact Hin | exact Hk].
Qed.

(** *** Properties of [load_config] *)

Lemma load_items_returns i data : forall modules,
  result_of (load_items i data modules) = Return tt /\
  List.length (state_of (load_items i data modules)) = List.length modules /\
  map accepts (state_of (load_items i data modules)) = map accepts modules.
Proof.
  induction data as [|[k v] data IH]; intros modules; [repeat split|].
  cbn [load_items]. unfold bind.
  destruct (negb (String.eqb k "number_inputs")).
  - destruct (modules !! i) as [m|] eqn:Em.
    + unfold value_set. destruct (accepts m k v) eqn:Ea.
      * destruct (IH (<[i := with_params (<[k := v]> (params m)) m]> modules))
          as (Hr & Hl & Ha).
        destruct (load_items i data _) as [[r s'] t]. cbn in *.
        rewrite Hr, Hl, Ha, length_insert. repeat split.
        rewrite list_fmap_insert. cbn [accepts with_params].
        apply list_insert_id. rewrite list_lookup_fmap, Em. reflexivity.
      * destruct (IH modules) as (Hr & Hl & Ha).
        destruct (load_items i data modules) as [[r s'] t]. cbn in *.
        rewrite Hr, Hl, Ha. repeat split.
    + destruct (IH modules) as (Hr & Hl & Ha).
      destruct (load_items i data modules) as [[r s'] t]. cbn in *.
      rewrite Hr, Hl, Ha. repeat split.
  - unfold ret. destruct (IH modules) as (Hr & Hl & Ha).
    destruct (load_items i data modules) as [[r s'] t]. cbn in *.
    rewrite Hr, Hl, Ha. repeat split.
Qed.

Lemma missing_values_accepts m m' data :
  accepts m' = accepts m -> missing_values m' data = missing_values m data.
Proof.
  intros H. unfold missing_values. f_equal. apply List.filter_ext.
  intros kv. unfold refused. rewrite H. reflexivity.
Qed.

(** The inner loop on a module that is there: it never raises, assigns
    the accepted pairs in order and logs the refused keys in order. *)
Lemma load_items_run i data : forall modules m,
  modules !! i = Some m ->
  load_items i data modules
  = (Return tt, <[i := apply_config m data]> modules,
     map (MissingValue i) (missing_values m data)).
Proof.
  induction data as [|[k v] data IH]; intros modules m Hm.
  - cbn. rewrite list_insert_id by exact Hm. reflexivity.
  - cbn [load_items]. unfold bind.
    unfold missing_values, refused, apply_config. cbn [List.filter foldl fst snd].
    destruct (String.eqb k "number_inputs") eqn:Ek; cbn [negb andb].
    + unfold ret. rewrite (IH modules m Hm). reflexivity.
    + rewrite Hm. unfold value_set. destruct (accepts m k v) eqn:Ea; cbn [negb].
      * set (m' := with_params (<[k := v]> (params m)) m).
        assert (Hm' : <[i := m']> modules !! i = Some m').
        { apply list_lookup_insert_eq. apply lookup_lt_is_Some. eexists; exact Hm. }
        rewrite (IH _ m' Hm'). rewrite list_insert_insert_eq.
        cbn [default from_option id app].
        rewrite (missing_values_accepts m m' data eq_refl). reflexivity.
      * rewrite (IH modules m Hm). cbn [default from_option id map app fst].
        reflexivity.
Qed.

Lemma load_data_state i file_names module_data modules :
  state_of (load_data i file_names module_data modules) = modules.
Proof.
  unfold load_data, state_of.
  destruct file_names as [fns|]; [|destruct module_data as [mds|]];
    repeat match goal with
           | |- context [if ?c then _ else _] => destruct c
           | |- context [match ?x with _ => _ end] => destruct x
           end; reflexivity.
Qed.

(** With a source supplied the loop never raises the configuration error. *)
Lemma load_config_loop_no_config_error indices file_names module_data :
  file_names <> None \/ module_data <> None ->
  forall modules,
    result_of (load_config_loop indices file_names module_data modules)
    <> Raise (Exception config_error).
Proof.
  intros Hsrc. induction indices as [|i rest IH]; intros modules; [discriminate|].
  cbn [load_config_loop]. unfold bind at 1.
  destruct (load_data i file_names module_data modules) as [[[data|e] s1] t1] eqn:Ed.
  - unfold bind.
    pose proof (load_items_returns i data s1) as (Hr & _ & _).
    destruct (load_items i data s1) as [[r s2] t2]. cbn in Hr. subst r.
    specialize (IH s2).
    destruct (load_config_loop rest file_names module_data s2) as [[r3 s3] t3].
    exact IH.
  - unfold result_of. cbn [fst]. unfold load_data in Ed.
    destruct file_names as [fns|]; [|destruct module_data as [mds|]];
      [| |destruct Hsrc as [H|H]; contradiction];
      repeat match type of Ed with
             | context [if ?c then _ else _] => destruct c
             | context [match ?x with _ => _ end] => destruct x
             end; try discriminate Ed; inversion Ed; subst; discriminate.
Qed.

(** With a source that has an entry for each index, the loop returns. *)
Lemma load_config_loop_returns file_names module_data indices :
  forall modules,
    lengths_agree file_names module_data (List.length modules) ->
    (forall i, In i indices -> is_Some (chosen_data file_names module_data i)) ->
    result_of (load_config_loop indices file_names module_data modules) = Return tt /\
    List.length (state_of (load_config_loop indices file_names module_data modules))
      = List.length modules.
Proof.
  induction indices as [|i rest IH]; intros modules Hlen Hdata; [split; reflexivity|].
  cbn [load_config_loop].
  destruct (Hdata i (or_introl eq_refl)) as [data Hd].
  assert (Hload : load_data i file_names module_data modules = (Return data, modules, [])).
  { unfold load_data, chosen_data, lengths_agree in *.
    destruct file_names as [fns|]; [|destruct module_data as [mds|]]; [| |contradiction].
    - rewrite Hlen, Nat.eqb_refl. destruct (fns !! i); [|discriminate Hd].
      rewrite Hd. reflexivity.
    - rewrite Hlen, Nat.eqb_refl. rewrite Hd. reflexivity. }
  unfold bind. rewrite Hload.
  pose proof (load_items_returns i data modules) as (Hr & Hl & _).
  destruct (load_items i data modules) as [[r s2] t2]. cbn in Hr, Hl. subst r.
  destruct (IH s2) as [Hr3 Hl3].
  { rewrite Hl. exact Hlen. }
  { intros j Hj. apply Hdata. right. exact Hj. }
  destruct (load_config_loop rest file_names module_data s2) as [[r3 s3] t3].
  cbn in *. split; [exact Hr3 | congruence].
Qed.

Lemma load_config_unfold file_names module_data modules :
  load_config file_names module_data modules
  = load_config_loop (seq 0 (List.length modules)) file_names module_data modules.
Proof.
  unfold load_config, bind, gets.
  destruct (load_config_loop _ file_names module_data modules) as [[r s'] t].
  reflexivity.
Qed.

(** C8, as the code has it: for a non-empty list of modules [load_config]
    raises its configuration error exactly when neither source is
    supplied (for an empty list it returns whatever is supplied; a
    supplied source of another length than the module list fails the
    length assertion instead).  With a source of the right length whose
    entries can be read it returns, whatever the keys: for a single
    module, the accepted pairs are assigned in order, and the refused
    keys are collected in order and otherwise skipped. *)
Theorem load_config_error_iff_no_source file_names module_data modules :
  modules <> [] ->
  let run := load_config file_names module_data modules in
  (result_of run = Raise (Exception config_error)
     <-> file_names = None /\ module_data = None) /\
  (lengths_agree file_names module_data (List.length modules) ->
   (forall i, (i < List.length modules)%nat ->
              is_Some (chosen_data file_names module_data i)) ->
   result_of run = Return tt) /\
  (forall m data, modules = [m] ->
     chosen_data file_names module_data 0 = Some data ->
     lengths_agree file_names module_data 1 ->
     run = (Return tt, [apply_config m data],
            map (MissingValue 0) (missing_values m data))).
Proof.
  intros Hne run. subst run. rewrite load_config_unfold.
  split; [|split].
  - split.
    + intros Hraise.
      destruct file_names as [fns|]; [|destruct module_data as [mds|]];
        [exfalso | exfalso | split; reflexivity].
      * assert (Hsrc : Some fns <> None \/ module_data <> None)
          by (left; discriminate).
        exact (load_config_loop_no_config_error _ _ _ Hsrc modules Hraise).
      * assert (Hsrc : @None (list string) <> None \/ Some mds <> None)
          by (right; discriminate).
        exact (load_config_loop_no_config_error _ _ _ Hsrc modules Hraise).
    + intros [-> ->]. destruct modules as [|m modules]; [contradiction|].
      cbn [List.length seq load_config_loop]. unfold bind, load_data.
      reflexivity.
  - intros Hlen Hdata.
    apply (load_config_loop_returns file_names module_data
             (seq 0 (List.length modules)) modules Hlen).
    intros i Hi. apply Hdata. apply in_seq in Hi. lia.
  - intros m data -> Hd Hlen. cbn [List.length seq load_config_loop].
    assert (Hload : load_data 0 file_names module_data [m] = (Return data, [m], [])).
    { unfold load_data, chosen_data, lengths_agree in *.
      destruct file_names as [fns|]; [|destruct module_data as [mds|]]; [| |contradiction].
      - rewrite Hlen. cbn [List.length Nat.eqb].
        destruct (fns !! 0%nat); [|discriminate Hd].
        rewrite Hd. reflexivity.
      - rewrite Hlen. cbn [List.length Nat.eqb]. rewrite Hd. reflexivity. }
    unfold bind at 1. rewrite Hload. unfold bind at 1.
    rewrite (load_items_run 0 data [m] m eq_refl).
    unfold bind, ret. cbn [app list_insert insert]. rewrite app_nil_r. reflexivity.
Qed.

(** *** Further properties of [run_model] and of the runs of the sweep *)

(** What a returning [run_model] went through. *)
Lemma run_model_inv heat_load hours_storage m r :
  result_of (run_model heat_load hours_storage m) = Return r ->
  exists m2 o q ratio,
    assigned heat_load hours_storage m = Some m2 /\
    execute m2 = Some o /\
    state_of (run_model heat_load hours_storage m) = with_outputs o m2 /\
    value_get m2 "q_pb_design" = Return q /\
    let fp := fadd (nan_to_zero (annual_field_freeze_protection o))
                   (nan_to_zero (annual_tes_freeze_protection o)) in
    let net := fsub (out_annual_energy o) fp in
    fdiv net (fmul (fmul q (Fin 1000)) (Fin 8760)) = Return ratio /\
    r = {| annual_energy := net; freeze_protection := fp;
           capacity_factor := fmul ratio (Fin 100);
           electrical_load := annual_electricity_consumption o |}.
Proof.
  unfold run_model, assigned, bind, assign, run_execute, lift, ret, result_of,
    state_of, nan_to_zero.
  destruct heat_load as [h|].
  - destruct (value_set m "q_pb_design" (VNum (Fin h))) as [m1|] eqn:E1;
      [|intros H; discriminate H].
    destruct hours_storage as [hs|].
    + destruct (value_set m1 "tshours" (VNum (Fin hs))) as [m2|] eqn:E2;
        [|intros H; discriminate H].
      destruct (execute m2) as [o|] eqn:Ex; [|intros H; discriminate H].
      change (value_get (with_outputs o m2) "q_pb_design")
        with (value_get m2 "q_pb_design").
      destruct (value_get m2 "q_pb_design") as [q|e] eqn:Eq;
        [|intros H; discriminate H].
      cbn [fst snd app].
      match goal with
      | |- context [fdiv ?n ?d] => destruct (fdiv n d) as [ratio|e] eqn:Ed
      end; [|intros H; discriminate H].
      intros H. injection H as <-.
      exists m2, o, q, ratio. repeat split; try reflexivity; assumption.
    + destruct (execute m1) as [o|] eqn:Ex; [|intros H; discriminate H].
      change (value_get (with_outputs o m1) "q_pb_design")
        with (value_get m1 "q_pb_design").
      destruct (value_get m1 "q_pb_design") as [q|e] eqn:Eq;
        [|intros H; discriminate H].
      cbn [fst snd app].
      match goal with
      | |- context [fdiv ?n ?d] => destruct (fdiv n d) as [ratio|e] eqn:Ed
      end; [|intros H; discriminate H].
      intros H. injection H as <-.
      exists m1, o, q, ratio. repeat split; try reflexivity; assumption.
  - destruct hours_storage as [hs|].
    + destruct (value_set m "tshours" (VNum (Fin hs))) as [m2|] eqn:E2;
        [|intros H; discriminate H].
      destruct (execute m2) as [o|] eqn:Ex; [|intros H; discriminate H].
      change (value_get (with_outputs o m2) "q_pb_design")
        with (value_get m2 "q_pb_design").
      destruct (value_get m2 "q_pb_design") as [q|e] eqn:Eq;
        [|intros H; discriminate H].
      cbn [fst snd app].
      match goal with
      | |- context [fdiv ?n ?d] => destruct (fdiv n d) as [ratio|e] eqn:Ed
      end; [|intros H; discriminate H].
      intros H. injection H as <-.
      exists m2, o, q, ratio. repeat split; try reflexivity; assumption.
    + destruct (execute m) as [o|] eqn:Ex; [|intros H; discriminate H].
      change (value_get (with_outputs o m) "q_pb_design")
        with (value_get m "q_pb_design").
      destruct (value_get m "q_pb_design") as [q|e] eqn:Eq;
        [|intros H; discriminate H].
      cbn [fst snd app].
      match goal with
      | |- context [fdiv ?n ?d] => destruct (fdiv n d) as [ratio|e] eqn:Ed
      end; [|intros H; discriminate H].
      intros H. injection H as <-.
      exists m, o, q, ratio. repeat split; try reflexivity; assumption.
Qed.

Lemma nan_to_zero_finite f : isnan (nan_to_zero f) = false.
Proof. destruct f; reflexivity. Qed.

(** X7: the freeze protection [run_model] returns is the sum of what the
    simulator reports for the field and for the storage, a [nan] counting
    as 0.  A [nan] in one of the two, or in both, never makes it [nan]:
    it is [nan] exactly when the two are infinities of opposite sign.
    The annual energy returned is the simulator's less that sum: [nan]
    exactly when the simulator's is, or the sum is, or the two are the
    same infinity.  The electrical load is the simulator's, as it is. *)
Theorem run_model_freeze_protection_nan heat_load hours_storage m r :
  result_of (run_model heat_load hours_storage m) = Return r ->
  exists o,
    Outputs (state_of (run_model heat_load hours_storage m)) = Some o /\
    freeze_protection r
      = fadd (nan_to_zero (annual_field_freeze_protection o))
             (nan_to_zero (annual_tes_freeze_protection o)) /\
    (isnan (freeze_protection r) = true
       <-> (annual_field_freeze_protection o = PInf /\
            annual_tes_freeze_protection o = NInf) \/
           (annual_field_freeze_protection o = NInf /\
            annual_tes_freeze_protection o = PInf)) /\
    annual_energy r = fsub (out_annual_energy o) (freeze_protection r) /\
    (isnan (annual_energy r) = true
       <-> isnan (out_annual_energy o) = true \/
           isnan (freeze_protection r) = true \/
           (out_annual_energy o = PInf /\ freeze_protection r = PInf) \/
           (out_annual_energy o = NInf /\ freeze_protection r = NInf)) /\
    electrical_load r = annual_electricity_consumption o.
Proof.
  intros H. destruct (run_model_inv _ _ _ _ H)
    as (m2 & o & q & ratio & _ & _ & Hst & _ & _ & ->).
  exists o. rewrite Hst. cbn [Outputs with_outputs freeze_protection annual_energy
    electrical_load].
  split; [reflexivity|]. split; [reflexivity|]. split; [|split; [reflexivity|split]].
  - destruct (annual_field_freeze_protection o);
      destruct (annual_tes_freeze_protection o); cbn;
      split; intros Hn;
      first [ discriminate Hn | reflexivity
            | left; split; reflexivity | right; split; reflexivity
            | destruct Hn as [[H1 H2]|[H1 H2]]; discriminate ].
  - destruct (out_annual_energy o);
      destruct (fadd (nan_to_zero (annual_field_freeze_protection o))
                     (nan_to_zero (annual_tes_freeze_protection o))); cbn;
      split; intros Hn;
      first [ discriminate Hn | reflexivity
            | left; reflexivity | right; left; reflexivity
            | right; right; left; split; reflexivity
            | right; right; right; split; reflexivity
            | destruct Hn as [Hn|[Hn|[[H1 H2]|[H1 H2]]]]; discriminate ].
  - reflexivity.
Qed.

(** [load_config] on the one module [setup_model] passes. *)
Lemma load_config_single file_names module_data m data :
  chosen_data file_names module_data 0 = Some data ->
  lengths_agree file_names module_data 1 ->
  load_config file_names module_data [m]
  = (Return tt, [apply_config m data],
     map (MissingValue 0) (missing_values m data)).
Proof.
  intros Hd Hlen. rewrite load_config_unfold.
  cbn [List.length seq load_config_loop].
  assert (Hload : load_data 0 file_names module_data [m] = (Return data, [m], [])).
  { unfold load_data, chosen_data, lengths_agree in *.
    destruct file_names as [fns|]; [|destruct module_data as [mds|]]; [| |contradiction].
    - rewrite Hlen. cbn [List.length Nat.eqb].
      destruct (fns !! 0%nat); [|discriminate Hd].
      rewrite Hd. reflexivity.
    - rewrite Hlen. cbn [List.length Nat.eqb]. rewrite Hd. reflexivity. }
  unfold bind at 1. rewrite Hload. unfold bind at 1.
  rewrite (load_items_run 0 data [m] m eq_refl).
  unfold bind, ret. cbn [app list_insert insert]. rewrite app_nil_r. reflexivity.
Qed.

(** X8: the order of the checks in [setup_model].  The parameter source is
    looked at first: with neither [config_files] nor [config_data] the
    configuration error is raised whatever the weather arguments are.
    Once the parameters are loaded, a weather file is used when there is
    one, also when weather data are given besides; weather data are used
    when there is no file; with neither, the weather error is raised. *)
Theorem setup_model_source_precedence
    model_name weather_file weather_data config_files config_data :
  (config_files = None -> config_data = None ->
     setup_model model_name weather_file weather_data config_files config_data
     = Raise (Exception config_error)) /\
  (forall data,
     chosen_data config_files config_data 0 = Some data ->
     lengths_agree config_files config_data 1 ->
     setup_model model_name weather_file weather_data config_files config_data
     = match weather_file, weather_data with
       | Some f, _ => Return (with_weather_file f (apply_config new_module data))
       | None, Some d => Return (with_weather_data d (apply_config new_module data))
       | None, None => Raise (Exception weather_error)
       end).
Proof.
  split.
  - intros -> ->. reflexivity.
  - intros data Hd Hlen. unfold setup_model.
    rewrite (load_config_single _ _ new_module data Hd Hlen).
    cbn [lookup list_lookup]. reflexivity.
Qed.

(** [setup_model] as [setup_and_run] calls it, on a single dictionary. *)
Lemma setup_model_single_config model_name weather_file data :
  chosen_data None (Some [data]) 0 = Some data /\
  setup_model model_name (Some weather_file) None None (Some [data])
  = Return (with_weather_file weather_file (apply_config new_module data)).
Proof.
  split; [reflexivity|]. unfold setup_model.
  rewrite (load_config_single None (Some [data]) new_module data eq_refl eq_refl).
  reflexivity.
Qed.

(** [run_model] has no assertion of its own. *)
Lemma run_model_no_assertion heat_load hours_storage m :
  result_of (run_model heat_load hours_storage m) <> Raise AssertionError.
Proof.
  unfold run_model, bind, assign, run_execute, lift, ret, result_of, value_get, fdiv.
  repeat match goal with
         | |- context [match ?x with _ => _ end] =>
             lazymatch x with
             | context [match _ with _ => _ end] => fail
             | _ => destruct x eqn:?
             end
         end; cbn; discriminate.
Qed.

(** X9: [setup_and_run] fails its length assertion exactly when
    [config_data] does not hold one dictionary: it configures one module,
    and nothing else on its way raises an [AssertionError]. *)
Theorem setup_and_run_needs_one_config
    model_name weather_file config_data heat_load hours_storage :
  setup_and_run model_name weather_file config_data heat_load hours_storage
    = Raise AssertionError
  <-> List.length config_data <> 1%nat.
Proof.
  unfold setup_and_run. split.
  - intros H Hlen.
    destruct config_data as [|data [|d2 rest]]; try discriminate Hlen.
    rewrite (proj2 (setup_model_single_config model_name weather_file data)) in H.
    exact (run_model_no_assertion _ _ _ H).
  - intros Hlen. unfold setup_model. rewrite load_config_unfold.
    cbn [List.length seq load_config_loop]. unfold bind at 1, load_data.
    cbn [List.length].
    destruct (List.length config_data =? 1)%nat eqn:E;
      [apply Nat.eqb_eq in E; contradiction | reflexivity].
Qed.

(** After both assignments the module holds the swept values, and what it
    held under other names. *)
Lemma assigned_params h hs m m2 :
  assigned (Some h) (Some hs) m = Some m2 ->
  params m2 !! "q_pb_design"%string = Some (VNum (Fin h)) /\
  params m2 !! "tshours"%string = Some (VNum (Fin hs)) /\
  (forall k, k <> "q_pb_design"%string -> k <> "tshours"%string ->
             params m2 !! k = params m !! k).
Proof.
  unfold assigned, value_set.
  destruct (accepts m "q_pb_design" (VNum (Fin h))); [|discriminate].
  cbn [accepts with_params].
  destruct (accepts m "tshours" (VNum (Fin hs))); [|discriminate].
  intros H. injection H as <-. cbn [params with_params].
  split; [|split].
  - rewrite lookup_insert_ne by discriminate. apply lookup_insert_eq.
  - apply lookup_insert_eq.
  - intros k H1 H2. rewrite !lookup_insert_ne by congruence. reflexivity.
Qed.

(** X10: every result the sweep can put in a row relates its capacity
    factor to its annual energy through the swept heat load:
    capacity factor = annual energy / (heat_load * 1e3 * 8760) * 100 (and
    [nan] for a [nan] annual energy, an infinity for an infinite one, of
    its sign or of the opposite one as the heat load is positive or
    negative), whatever [q_pb_design] the configuration held.  A zero heat load gives no result at all: the
    division raises. *)
Theorem setup_and_run_row_invariant
    model_name weather_file config_data heat_load hours_storage r :
  setup_and_run model_name weather_file config_data heat_load hours_storage
    = Return r ->
  ~ heat_load == 0 /\
  capacity_factor r
  = match annual_energy r with
    | Fin e => Fin (e / (heat_load * 1000 * 8760) * 100)
    | PInf => inf (Qle_bool 0 (heat_load * 1000 * 8760))
    | NInf => inf (negb (Qle_bool 0 (heat_load * 1000 * 8760)))
    | NaN => NaN
    end.
Proof.
  unfold setup_and_run.
  destruct (setup_model model_name (Some weather_file) None None (Some config_data))
    as [m|e]; [|discriminate].
  intros H. destruct (run_model_inv _ _ _ _ H)
    as (m2 & o & q & ratio & Ha & _ & _ & Hq & Hdiv & ->).
  destruct (assigned_params _ _ _ _ Ha) as (Hp & _ & _).
  unfold value_get in Hq. rewrite Hp in Hq. injection Hq as <-.
  cbn [fmul] in Hdiv. unfold fdiv in Hdiv.
  destruct (Qeq_bool (heat_load * 1000 * 8760) 0) eqn:E; [discriminate Hdiv|].
  split.
  - intros Hz. rewrite Hz in E. discriminate E.
  - cbn [capacity_factor annual_energy].
    match type of Hdiv with
    | match ?net with _ => _ end = _ => destruct net
    end; injection Hdiv as <-; try reflexivity;
      destruct (Qle_bool 0 (heat_load * 1000 * 8760)); reflexivity.
Qed.

(** X11: a returning [run_model] leaves the swept values in the module and
    touches no other parameter: afterwards [tes_cost] is
    heat_load * 1e3 * hours_storage * 62 (nothing for no storage), every
    parameter but [q_pb_design] and [tshours] is as before, and
    [system_capacity] is the heat load times the solar multiple the module
    already held, times 1e3. *)
Theorem run_model_leaves_swept_values h hs m r :
  result_of (run_model (Some h) (Some hs) m) = Return r ->
  let m' := state_of (run_model (Some h) (Some hs) m) in
  tes_cost m' = Return (Fin (h * 1000 * hs * 62)) /\
  (forall k, k <> "q_pb_design"%string -> k <> "tshours"%string ->
             params m' !! k = params m !! k) /\
  (forall sm, params m !! "specified_solar_multiple"%string = Some (VNum sm) ->
              system_capacity m' = Return (fmul (fmul (Fin h) sm) (Fin 1000))).
Proof.
  intros H. destruct (run_model_inv _ _ _ _ H)
    as (m2 & o & q & ratio & Ha & _ & Hst & _ & _ & _).
  cbv zeta. rewrite Hst.
  destruct (assigned_params _ _ _ _ Ha) as (Hq & Ht & Hother).
  unfold tes_cost, system_capacity, value_get, and_then.
  cbn [params with_outputs]. rewrite Hq, Ht.
  split; [reflexivity|]. split; [exact Hother|].
  intros sm Hsm. rewrite (Hother "specified_solar_multiple"%string) by discriminate.
  rewrite Hsm. reflexivity.
Qed.

End Run.

(** *** Concrete runs *)

Lemma run_model_capacity_factor_witness :
  exists r,
    result_of (run_model (fun _ => Some half_load_outputs) (Some 1) (Some 0) open_module)
      = Return r /\
    capacity_factor r = Fin ((4380000 - (0 + 0)) / (1 * 1000 * 8760) * 100) /\
    within 0 100 (capacity_factor r).
Proof.
  destruct (run_model_capacity_factor (fun _ => Some half_load_outputs)
              open_module 1 0 half_load_outputs 4380000 0 0)
    as (r & Hr & _ & _ & Hcf & _ & Hw & _);
    try reflexivity.
  exists r. split; [exact Hr|]. split; [exact Hcf|].
  apply Hw. split; [discriminate | discriminate].
Defined.

Lemma load_config_error_iff_no_source_witness :
  result_of (load_config no_files None None [strict_module])
    = Raise (Exception config_error) /\
  load_config no_files None
    (Some [[("tshours"%string, VNum (Fin 6));
            ("number_inputs"%string, VNum (Fin 2));
            ("unknown_key"%string, VText "x")]]) [strict_module]
  = (Return tt,
     [with_params (<["tshours"%string := VNum (Fin 6)]> ∅) strict_module],
     [MissingValue 0 "unknown_key"]).
Proof.
  split.
  - pose proof (load_config_error_iff_no_source no_files None None [strict_module]
                  ltac:(discriminate)) as [H _].
    apply H. split; reflexivity.
  - pose proof (load_config_error_iff_no_source no_files None
                  (Some [[("tshours"%string, VNum (Fin 6));
                          ("number_inputs"%string, VNum (Fin 2));
                          ("unknown_key"%string, VText "x")]]) [strict_module]
                  ltac:(discriminate)) as (_ & _ & H).
    exact (H strict_module _ eq_refl eq_refl eq_refl).
Defined.

(** C8 as stated fails in both directions: with no module to configure,
    [load_config] returns although neither source is supplied; and with a
    source supplied that has no entry for the module, it raises. *)
Lemma load_config_iff_fails :
  result_of (load_config no_files None None []) = Return tt /\
  result_of (load_config no_files None (Some []) [strict_module]) = Raise AssertionError.
Proof. split; reflexivity. Qed.

(** *** Further properties of [load_config] *)
Section LoadFacts.
Variable read_module_datafile : string -> option config.

Lemma apply_config_fold m data : apply_config m data = foldl apply_pair m data.
Proof. reflexivity. Qed.

Lemma apply_pair_accepts m kv : accepts (apply_pair m kv) = accepts m.
Proof.
  unfold apply_pair, value_set.
  destruct (String.eqb (fst kv) "number_inputs"); [reflexivity|].
  destruct (accepts m (fst kv) (snd kv)); reflexivity.
Qed.

Lemma apply_config_accepts data : forall m,
  accepts (apply_config m data) = accepts m.
Proof.
  induction data as [|kv data IH]; intros m; [reflexivity|].
  rewrite apply_config_fold. cbn [foldl]. rewrite <- apply_config_fold.
  rewrite IH. apply apply_pair_accepts.
Qed.

Lemma apply_pair_params m kv k :
  params (apply_pair m kv) !! k
  = if decide (k = fst kv) then
      if negb (String.eqb (fst kv) "number_inputs") && accepts m (fst kv) (snd kv)
      then Some (snd kv) else params m !! k
    else params m !! k.
Proof.
  unfold apply_pair, value_set.
  destruct (String.eqb (fst kv) "number_inputs"); cbn [negb andb].
  - destruct (decide (k = fst kv)); reflexivity.
  - destruct (accepts m (fst kv) (snd kv)); cbn [default from_option id params with_params].
    + destruct (decide (k = fst kv)) as [->|Hne].
      * apply lookup_insert_eq.
      * apply lookup_insert_ne. congruence.
    + destruct (decide (k = fst kv)); reflexivity.
Qed.

Lemma apply_config_other data : forall m k,
  ~ In k (map fst data) ->
  params (apply_config m data) !! k = params m !! k.
Proof.
  induction data as [|kv data IH]; intros m k Hn; [reflexivity|].
  rewrite apply_config_fold. cbn [foldl]. rewrite <- apply_config_fold.
  simpl in Hn. rewrite IH by tauto. rewrite apply_pair_params.
  destruct (decide (k = fst kv)) as [->|]; [|reflexivity]. tauto.
Qed.

Lemma apply_config_in data : forall m k v,
  NoDup (map fst data) -> In (k, v) data ->
  params (apply_config m data) !! k
  = if negb (String.eqb k "number_inputs") && accepts m k v
    then Some v else params m !! k.
Proof.
  induction data as [|kv data IH]; intros m k v Hnd Hin; [destruct Hin|].
  cbn [map] in Hnd. apply NoDup_cons in Hnd as [Hfresh Hnd].
  rewrite apply_config_fold. cbn [foldl]. rewrite <- apply_config_fold.
  destruct Hin as [->|Hin].
  - cbn [fst] in Hfresh. rewrite apply_config_other.
    + rewrite apply_pair_params. cbn [fst snd].
      destruct (decide (k = k)); [reflexivity | contradiction].
    + intros H. apply Hfresh. apply list_elem_of_In. exact H.
  - rewrite (IH _ k v Hnd Hin). rewrite apply_pair_accepts.
    rewrite apply_pair_params.
    destruct (decide (k = fst kv)) as [->|]; [|reflexivity].
    exfalso. apply Hfresh. apply list_elem_of_In. apply in_map_iff.
    exists (fst kv, v). split; [reflexivity | exact Hin].
Qed.

(** X12: loading and reading back.  After [load_config] on one module and
    one dictionary (its keys distinct, as those of a dictionary are), every
    pair the module accepts, [number_inputs] apart, is what the module
    holds under that key; every parameter the dictionary does not name is
    as before; and the module accepts what it accepted. *)
Theorem load_config_round_trip m data :
  NoDup (map fst data) ->
  exists m',
    state_of (load_config read_module_datafile None (Some [data]) [m]) = [m'] /\
    accepts m' = accepts m /\
    (forall k v, In (k, v) data -> k <> "number_inputs"%string ->
                 accepts m k v = true -> params m' !! k = Some v) /\
    (forall k, ~ In k (map fst data) -> params m' !! k = params m !! k).
Proof.
  intros Hnd. exists (apply_config m data).
  rewrite (load_config_single read_module_datafile None (Some [data]) m data
           eq_refl eq_refl).
  split; [reflexivity|]. split; [apply apply_config_accepts|]. split.
  - intros k v Hin Hk Ha. rewrite (apply_config_in data m k v Hnd Hin), Ha.
    apply String.eqb_neq in Hk. rewrite Hk. reflexivity.
  - intros k. apply apply_config_other.
Qed.

(** X13: what [load_config] skips.  Under the same conditions the key
    [number_inputs] and every pair the module refuses leave the module's
    parameter under that key as it was, and the keys collected as missing
    are exactly the refused ones: [number_inputs] is never among them. *)
Theorem load_config_skips m data :
  NoDup (map fst data) ->
  exists m',
    state_of (load_config read_module_datafile None (Some [data]) [m]) = [m'] /\
    (forall k v, In (k, v) data ->
       k = "number_inputs"%string \/ accepts m k v = false ->
       params m' !! k = params m !! k) /\
    (forall i k,
       In (MissingValue i k) (trace_of (load_config read_module_datafile None (Some [data]) [m]))
       <-> i = 0%nat /\ k <> "number_inputs"%string /\
           exists v, In (k, v) data /\ accepts m k v = false).
Proof.
  intros Hnd. exists (apply_config m data).
  rewrite (load_config_single read_module_datafile None (Some [data]) m data
           eq_refl eq_refl).
  split; [reflexivity|]. split.
  - intros k v Hin Hor. rewrite (apply_config_in data m k v Hnd Hin).
    destruct Hor as [->|Ha]; [reflexivity|].
    rewrite Ha, andb_false_r. reflexivity.
  - intros i k. unfold trace_of. cbn [snd]. unfold missing_values. split.
    + intros Hin. apply in_map_iff in Hin as (k' & Heq & Hin).
      injection Heq as <- <-.
      apply in_map_iff in Hin as ([k2 v] & <- & Hin).
      apply List.filter_In in Hin as [Hin Href].
      unfold refused in Href. cbn [fst snd] in *.
      apply andb_prop in Href as [Hk Ha].
      apply negb_true_iff in Hk. apply negb_true_iff in Ha.
      split; [reflexivity|]. split; [apply String.eqb_neq; exact Hk|].
      exists v. split; assumption.
    + intros (-> & Hk & v & Hin & Ha).
      apply in_map_iff. exists k. split; [reflexivity|].
      apply in_map_iff. exists (k, v). split; [reflexivity|].
      apply List.filter_In. split; [exact Hin|].
      unfold refused. cbn [fst snd]. rewrite Ha.
      apply String.eqb_neq in Hk. rewrite Hk. reflexivity.
Qed.

End LoadFacts.

(** *** Further concrete runs *)

Lemma run_model_freeze_protection_nan_witness :
  freeze_protection frozen_result
  = fadd (nan_to_zero (annual_field_freeze_protection frozen_outputs))
         (nan_to_zero (annual_tes_freeze_protection frozen_outputs)) /\
  annual_energy frozen_result
  = fsub (out_annual_energy frozen_outputs) (freeze_protection frozen_result).
Proof.
  destruct (run_model_freeze_protection_nan (fun _ => Some frozen_outputs)
              (Some 1) (Some 0) open_module frozen_result)
    as (o & Ho & Hf & _ & Ha & _).
  - vm_compute. reflexivity.
  - assert (E : Outputs (state_of (run_model (fun _ => Some frozen_outputs)
                                     (Some 1) (Some 0) open_module))
                = Some frozen_outputs)
      by (vm_compute; reflexivity).
    rewrite Ho in E. injection E as ->. split; [exact Hf | exact Ha].
Defined.

Lemma setup_and_run_row_invariant_witness :
  capacity_factor half_load_result
  = match annual_energy half_load_result with
    | Fin e => Fin (e / (1 * 1000 * 8760) * 100)
    | PInf => inf (Qle_bool 0 (1 * 1000 * 8760))
    | NInf => inf (negb (Qle_bool 0 (1 * 1000 * 8760)))
    | NaN => NaN
    end.
Proof.
  apply (setup_and_run_row_invariant no_files open_module
           (fun _ => Some half_load_outputs) "model" "weather.csv" [[]] 1 0
           half_load_result).
  vm_compute. reflexivity.
Defined.

Lemma run_model_leaves_swept_values_witness :
  tes_cost (state_of (run_model (fun _ => Some frozen_outputs) (Some 1) (Some 0) open_module))
  = Return (Fin (1 * 1000 * 0 * 62)).
Proof.
  apply (run_model_leaves_swept_values (fun _ => Some frozen_outputs) 1 0
           open_module frozen_result).
  vm_compute. reflexivity.
Defined.

Lemma sample_config_keys : NoDup (map fst sample_config).
Proof. apply (bool_decide_unpack _). vm_compute. exact I. Qed.

Lemma load_config_round_trip_witness :
  exists m',
    state_of (load_config no_files None (Some [sample_config]) [strict_module]) = [m'] /\
    params m' !! "tshours"%string = Some (VNum (Fin 6)).
Proof.
  destruct (load_config_round_trip no_files strict_module sample_config
              sample_config_keys) as (m' & Hst & _ & Hin & _).
  exists m'. split; [exact Hst|].
  apply Hin; [simpl; tauto | discriminate | reflexivity].
Defined.

Lemma load_config_skips_witness :
  exists m',
    state_of (load_config no_files None (Some [sample_config]) [strict_module]) = [m'] /\
    params m' !! "unknown_key"%string = None /\
    In (MissingValue 0 "unknown_key")
       (trace_of (load_config no_files None (Some [sample_config]) [strict_module])).
Proof.
  destruct (load_config_skips no_files strict_module sample_config
              sample_config_keys) as (m' & Hst & Hskip & Hmiss).
  exists m'. split; [exact Hst|]. split.
  - rewrite (Hskip "unknown_key"%string (VText "x")); [reflexivity | simpl; tauto |].
    right. reflexivity.
  - apply Hmiss. split; [reflexivity|]. split; [discriminate|].
    exists (VText "x"). split; [simpl; tauto | reflexivity].
Defined.

(** *** The columns [plot_3d] asks for *)

Lemma column_at_raised columns i :
  raised (column_at columns i) = true
  <-> ~ (- Z.of_nat (List.length columns) <= i < Z.of_nat (List.length columns))%Z.
Proof.
  unfold column_at. cbv zeta.
  set (n := Z.of_nat (List.length columns)).
  destruct (i <? 0)%Z eqn:Ei;
    [apply Z.ltb_lt in Ei | apply Z.ltb_ge in Ei].
  - destruct ((0 <=? n + i) && (n + i <? n))%Z eqn:Er.
    + apply andb_prop in Er as [H1 H2].
      apply Z.leb_le in H1. apply Z.ltb_lt in H2.
      destruct (columns !! Z.to_nat (n + i)) as [c|] eqn:El.
      * cbn. split; [discriminate | intros H; exfalso; apply H; lia].
      * apply lookup_ge_None in El. exfalso. subst n. lia.
    + cbn. split; [intros _ | reflexivity].
      apply andb_false_iff in Er as [H|H];
        [apply Z.leb_gt in H | apply Z.ltb_ge in H]; lia.
  - destruct ((0 <=? i) && (i <? n))%Z eqn:Er.
    + apply andb_prop in Er as [H1 H2].
      apply Z.leb_le in H1. apply Z.ltb_lt in H2.
      destruct (columns !! Z.to_nat i) as [c|] eqn:El.
      * cbn. split; [discriminate | intros H; exfalso; apply H; lia].
      * apply lookup_ge_None in El. exfalso. subst n. lia.
    + cbn. split; [intros _ | reflexivity].
      apply andb_false_iff in Er as [H|H];
        [apply Z.leb_gt in H | apply Z.ltb_ge in H]; lia.
Qed.

Lemma column_at_error columns i e :
  column_at columns i = Raise e -> e = External "IndexError".
Proof.
  unfold column_at. cbv zeta.
  repeat match goal with
         | |- context [if ?c then _ else _] => destruct c
         | |- context [match ?x with _ => _ end] => destruct x
         end; intros H; try discriminate H; injection H as <-; reflexivity.
Qed.

(** X14: [plot_3d] fails with an [IndexError], before anything is drawn,
    exactly when one of its three column indices is outside the frame's
    columns (an index [i] is inside when -n <= i < n for [n] columns), and
    it raises nothing else at that point.  On the six columns of the
    sweep's data frame the calls of the script with [z_index] 2 and 4 ask
    for the annual energy and the capacity factor over (hours_storage,
    heat_load); the call with [z_index = 6] raises. *)
Theorem plot_3d_column_lookup columns x_index y_index z_index :
  let n := Z.of_nat (List.length columns) in
  let inside i := (- n <= i < n)%Z in
  (raised (plot_3d columns x_index y_index z_index) = true
     <-> ~ (inside x_index /\ inside y_index /\ inside z_index)) /\
  (forall e, plot_3d columns x_index y_index z_index = Raise e ->
             e = External "IndexError") /\
  plot_3d dataset_columns 0 1 2
    = Return ("hours_storage", "heat_load", "annual_energy")%string /\
  plot_3d dataset_columns 0 1 4
    = Return ("hours_storage", "heat_load", "capacity_factor")%string /\
  plot_3d dataset_columns 0 1 6 = Raise (External "IndexError").
Proof.
  cbv zeta. split; [|split; [|repeat split]].
  - pose proof (column_at_raised columns x_index) as Hx.
    pose proof (column_at_raised columns y_index) as Hy.
    pose proof (column_at_raised columns z_index) as Hz.
    unfold plot_3d, and_then.
    destruct (column_at columns y_index) as [y|ey];
      destruct (column_at columns x_index) as [x|ex];
      destruct (column_at columns z_index) as [z|ez];
      cbn [raised] in *; split; intros H;
      try discriminate H; try reflexivity; try tauto.
    all: exfalso; apply H; repeat split;
      match goal with
      | |- (?a <= ?i)%Z => destruct (Z_le_gt_dec a i); [assumption|exfalso]
      | |- (?i < ?b)%Z => destruct (Z_lt_ge_dec i b); [assumption|exfalso]
      end;
      first [ assert (true = true) as _ by reflexivity;
              match goal with
              | Hc : false = true <-> ~ _ |- _ =>
                  assert (false = true) as Hd by (apply Hc; lia); discriminate Hd
              end ].
  - intros e. unfold plot_3d, and_then.
    destruct (column_at columns y_index) as [y|ey] eqn:Ey.
    + destruct (column_at columns x_index) as [x|ex] eqn:Ex.
      * destruct (column_at columns z_index) as [z|ez] eqn:Ez; [discriminate|].
        intros H. injection H as <-. exact (column_at_error _ _ _ Ez).
      * intros H. injection H as <-. exact (column_at_error _ _ _ Ex).
    + intros H. injection H as <-. exact (column_at_error _ _ _ Ey).
Qed.

End PySAMTrough.

(** * costing/solar/wind.py *)
Module WindCosting.

Local Open Scope Q_scope.

(** The variables of the parameter block ([build_wind_cost_param_block]),
    of the costing block ([cost_wind] and the [make_*_var] helpers) and of
    the wind unit model. *)
Inductive var : Type :=
| cost_turbine_per_kw | cost_turbine_per | cost_balance_system_per_kw
| contingency_frac_direct_cost | indirect_frac_direct_cost
| fixed_operating_by_capacity | variable_operating_by_generation
| capital_cost | fixed_operating_cost | variable_operating_cost
| direct_cost | indirect_cost | sales_tax
| system_capacity | electricity.

(** The base units of a unit expression: the exponents of currency, mass,
    length and time. *)
Record dimension : Type := {
  currency_exp : Z;
  mass_exp : Z;
  length_exp : Z;
  time_exp : Z
}.

Definition dim_eqb (a b : dimension) : bool :=
  (currency_exp a =? currency_exp b)%Z && (mass_exp a =? mass_exp b)%Z
  && (length_exp a =? length_exp b)%Z && (time_exp a =? time_exp b)%Z.

Definition dim_mul (a b : dimension) : dimension :=
  {| currency_exp := currency_exp a + currency_exp b;
     mass_exp := mass_exp a + mass_exp b;
     length_exp := length_exp a + length_exp b;
     time_exp := time_exp a + time_exp b |}.

Definition dim_div (a b : dimension) : dimension :=
  {| currency_exp := currency_exp a - currency_exp b;
     mass_exp := mass_exp a - mass_exp b;
     length_exp := length_exp a - length_exp b;
     time_exp := time_exp a - time_exp b |}.

(** A unit expression: its factor to the base units and its base units. *)
Record units : Type := {
  to_base : Q;
  base_units : dimension
}.

Definition dimensionless : units :=
  {| to_base := 1;
     base_units := {| currency_exp := 0; mass_exp := 0;
                      length_exp := 0; time_exp := 0 |} |}.

Definition umul (a b : units) : units :=
  {| to_base := to_base a * to_base b;
     base_units := dim_mul (base_units a) (base_units b) |}.

Definition udiv (a b : units) : units :=
  {| to_base := to_base a / to_base b;
     base_units := dim_div (base_units a) (base_units b) |}.

(** [pyo.units.kW], [pyo.units.kilowatt] and [pyo.units.MWh]. *)
Definition kW : units :=
  {| to_base := 1000;
     base_units := {| currency_exp := 0; mass_exp := 1;
                      length_exp := 2; time_exp := -3 |} |}.
Definition MWh : units :=
  {| to_base := 3600000000;
     base_units := {| currency_exp := 0; mass_exp := 1;
                      length_exp := 2; time_exp := -2 |} |}.

Definition is_dimensionless (u : units) : bool :=
  dim_eqb (base_units u) (base_units dimensionless).

(** Pyomo expressions, as far as [cost_wind] builds them; [Scaled k e u] is
    what a conversion of [e] to the units [u] returns. *)
Inductive expr : Type :=
| Const (c : Q)
| Ref (v : var)
| Mul (a b : expr)
| Scaled (k : Q) (e : expr) (to_units : units).

(** A declared variable: initial value, bounds and units. *)
Record declaration : Type := {
  declared : var;
  initialize : Q;
  lower : option Q;
  upper : option Q;
  declared_units : units
}.

(** An equality constraint [lhs == rhs] under its attribute name. *)
Record constraint : Type := {
  label : string;
  lhs : expr;
  rhs : expr
}.

(** The costing block [blk] and, of the costing package, the parameter
    block [wind] once it is built. *)
Record block : Type := {
  wind : option (list declaration);
  declarations : list declaration;
  constraints : list constraint;
  cost_flows : list (var * string)
}.

Definition with_wind (ps : list declaration) (b : block) : block :=
  {| wind := Some ps; declarations := declarations b;
     constraints := constraints b; cost_flows := cost_flows b |}.

Definition with_declaration (d : declaration) (b : block) : block :=
  {| wind := wind b; declarations := declarations b ++ [d];
     constraints := constraints b; cost_flows := cost_flows b |}.

Definition with_constraint (c : constraint) (b : block) : block :=
  {| wind := wind b; declarations := declarations b;
     constraints := constraints b ++ [c]; cost_flows := cost_flows b |}.

Definition with_cost_flow (f : var * string) (b : block) : block :=
  {| wind := wind b; declarations := declarations b;
     constraints := constraints b; cost_flows := cost_flows b ++ [f] |}.

Definition empty_block : block :=
  {| wind := None; declarations := []; constraints := []; cost_flows := [] |}.

(** A currency and a year, for the examples. *)
Definition USD : units :=
  {| to_base := 1;
     base_units := {| currency_exp := 1; mass_exp := 0;
                      length_exp := 0; time_exp := 0 |} |}.
Definition year : units :=
  {| to_base := 31557600;
     base_units := {| currency_exp := 0; mass_exp := 0;
                      length_exp := 0; time_exp := 1 |} |}.

Section Costing.
(** [base_currency] and [base_period] of the costing package. *)
Variable base_currency base_period : units.
(** The units the variables were declared with, as [get_units] reports
    them. *)
Variable var_units : var -> units.
(** [make_capital_cost_var], [make_fixed_operating_cost_var] and
    [make_variable_operating_cost_var] of the costing utilities and
    [costing_package.add_cost_factor(blk, None)], as changes of the block. *)
Variable make_capital_cost_var make_fixed_operating_cost_var
  make_variable_operating_cost_var add_cost_factor : block -> block.

Local Open Scope prog_scope.
Local Abbreviation P := (prog block Empty_set).

Fixpoint get_units (e : expr) : units :=
  match e with
  | Const _ => dimensionless
  | Ref v => var_units v
  | Mul a b => umul (get_units a) (get_units b)
  | Scaled _ _ u => u
  end.

(** [pyo.units.convert(src, to_units=to_units)]: the expression itself
    between dimensionless units, the expression scaled when the base units
    agree, and [InconsistentUnitsError] when they do not.  This is the
    documented behaviour of the modelling library, which is external to
    the repository. *)
Definition convert (src : expr) (to_units : units) : outcome expr :=
  let src_units := get_units src in
  if is_dimensionless src_units && is_dimensionless to_units then Return src
  else if dim_eqb (base_units src_units) (base_units to_units)
       then Return (Scaled (to_base src_units / to_base to_units) src to_units)
       else Raise (External "InconsistentUnitsError").

Definition lift {A} (r : outcome A) : P A := fun b => (r, b, []).

(** [blk.<name> = pyo.Var(...)] *)
Definition declare (v : var) (init : Q) (lo hi : option Q) (u : units) : P unit :=
  modify (with_declaration {| declared := v; initialize := init;
                              lower := lo; upper := hi; declared_units := u |}).

(** [blk.<label> = pyo.Constraint(expr=lhs == rhs)] *)
Definition add_constraint (name : string) (l r : expr) : P unit :=
  modify (with_constraint {| label := name; lhs := l; rhs := r |}).

Definition cost_flow (v : var) (name : string) : P unit :=
  modify (with_cost_flow (v, name)).

Definition build_wind_cost_param_block : list declaration :=
  [ {| declared := cost_turbine_per_kw; initialize := 1112.4;
       lower := Some 0; upper := None;
       declared_units := udiv base_currency kW |};
    {| declared := cost_turbine_per; initialize := 0;
       lower := Some 0; upper := None;
       declared_units := base_currency |};
    {| declared := cost_balance_system_per_kw; initialize := 0;
       lower := Some 0; upper := None;
       declared_units := udiv base_currency kW |};
    {| declared := contingency_frac_direct_cost; initialize := 0;
       lower := Some 0; upper := Some 1;
       declared_units := dimensionless |};
    {| declared := indirect_frac_direct_cost; initialize := 0;
       lower := Some 0; upper := Some 1;
       declared_units := dimensionless |};
    {| declared := fixed_operating_by_capacity; initialize := 40;
       lower := Some 0; upper := None;
       declared_units := udiv base_currency (umul kW base_period) |};
    {| declared := variable_operating_by_generation; initialize := 0;
       lower := Some 0; upper := None;
       declared_units := udiv base_currency MWh |} ].

(** The body of [cost_wind(blk)]. *)
Definition cost_wind_body : P unit :=
  modify make_capital_cost_var ;;
  modify add_cost_factor ;;
  modify make_fixed_operating_cost_var ;;
  modify make_variable_operating_cost_var ;;
  declare direct_cost 10000 (Some 0) None base_currency ;;
  declare indirect_cost 10000 (Some 0) None base_currency ;;
  declare sales_tax 100 (Some 0) None base_currency ;;
  let capital_cost_expr := Const 0 in
  rhs <- lift (convert capital_cost_expr base_currency) ;;
  add_constraint "capital_cost_constraint" (Ref capital_cost) rhs ;;
  capacity <- lift (convert (Ref system_capacity) kW) ;;
  rhs <- lift (convert (Mul (Ref fixed_operating_by_capacity) capacity)
                 (udiv base_currency base_period)) ;;
  add_constraint "fixed_operating_cost_constraint" (Ref fixed_operating_cost) rhs ;;
  cost_flow electricity "electricity".

(** [cost_wind] as decorated with [register_costing_parameter_block]: the
    parameter block [wind] is built on the first call, then the body
    runs. *)
Definition cost_wind : P unit :=
  ps <- gets wind ;;
  match ps with
  | Some _ => ret tt
  | None => modify (with_wind build_wind_cost_param_block)
  end ;;
  cost_wind_body.

(** The block as the four helpers leave it. *)
Definition prepared (blk : block) : block :=
  make_variable_operating_cost_var
    (make_fixed_operating_cost_var
       (add_cost_factor (make_capital_cost_var blk))).

(** C10: what [cost_wind] does on a costing package whose base currency
    is a currency.  The expression the capital cost is to be equated with
    is the bare number 0; converting it to the base currency raises
    [InconsistentUnitsError], a number without units and a currency having
    different base units.  So [cost_wind] raises, whatever the block and
    the cost parameters: the parameter block is built and the three cost
    components are declared, but no constraint is added, neither the one
    on the capital cost nor the one on the fixed operating cost, and no
    cost flow is registered. *)
Theorem cost_wind_raises_on_capital_cost (blk : block) :
  is_dimensionless base_currency = false ->
  let run := cost_wind blk in
  let built := prepared (match wind blk with
                         | Some _ => blk
                         | None => with_wind build_wind_cost_param_block blk
                         end) in
  convert (Const 0) base_currency = Raise (External "InconsistentUnitsError") /\
  result_of run = Raise (External "InconsistentUnitsError") /\
  constraints (state_of run) = constraints built /\
  cost_flows (state_of run) = cost_flows built /\
  declarations (state_of run)
  = declarations built
    ++ [ {| declared := direct_cost; initialize := 10000;
            lower := Some 0; upper := None; declared_units := base_currency |};
         {| declared := indirect_cost; initialize := 10000;
            lower := Some 0; upper := None; declared_units := base_currency |};
         {| declared := sales_tax; initialize := 100;
            lower := Some 0; upper := None; declared_units := base_currency |} ] /\
  wind (state_of run) = wind built.
Proof.
  intros Hcur. cbv zeta.
  assert (Hconv : convert (Const 0) base_currency
                  = Raise (External "InconsistentUnitsError")).
  { unfold convert. cbn [get_units]. rewrite Hcur. rewrite andb_false_r.
    unfold is_dimensionless in Hcur. cbn [base_units dimensionless] in *.
    assert (Hsym : dim_eqb {| currency_exp := 0; mass_exp := 0;
                              length_exp := 0; time_exp := 0 |}
                     (base_units base_currency)
                   = dim_eqb (base_units base_currency)
                       {| currency_exp := 0; mass_exp := 0;
                          length_exp := 0; time_exp := 0 |}).
    { unfold dim_eqb. cbn [currency_exp mass_exp length_exp time_exp].
      rewrite (Z.eqb_sym 0 (currency_exp _)), (Z.eqb_sym 0 (mass_exp _)),
        (Z.eqb_sym 0 (length_exp _)), (Z.eqb_sym 0 (time_exp _)). reflexivity. }
    rewrite Hsym, Hcur. reflexivity. }
  split; [exact Hconv|].
  unfold cost_wind, cost_wind_body, bind, gets, modify, ret, lift, declare,
    add_constraint, cost_flow, result_of, state_of, prepared.
  rewrite Hconv.
  destruct (wind blk); cbn; repeat split; rewrite <- !app_assoc; reflexivity.
Qed.

End Costing.

(** A costing package in dollars per year; helpers that declare nothing. *)
Lemma cost_wind_raises_on_capital_cost_witness :
  cost_wind USD year (fun _ => dimensionless) (fun b => b) (fun b => b)
    (fun b => b) (fun b => b) empty_block
  = (Raise (External "InconsistentUnitsError"),
     {| wind := Some (build_wind_cost_param_block USD year);
        declarations :=
          [ {| declared := direct_cost; initialize := 10000;
               lower := Some 0; upper := None; declared_units := USD |};
            {| declared := indirect_cost; initialize := 10000;
               lower := Some 0; upper := None; declared_units := USD |};
            {| declared := sales_tax; initialize := 100;
               lower := Some 0; upper := None; declared_units := USD |} ];
        constraints := [];
        cost_flows := [] |},
     []).
Proof.
  pose proof (cost_wind_raises_on_capital_cost USD year (fun _ => dimensionless)
                (fun b => b) (fun b => b) (fun b => b) (fun b => b)
                empty_block eq_refl) as H.
  cbv zeta in H. destruct H as (_ & Hres & _).
  destruct (cost_wind USD year (fun _ => dimensionless) (fun b => b) (fun b => b)
              (fun b => b) (fun b => b) empty_block) as [[r st] tr] eqn:E.
  unfold result_of in Hres. cbn in Hres. subst r.
  rewrite <- E. reflexivity.
Defined.

End WindCosting.

(** * permian_MD_sweep_plot_functions/RPT1_tornado_plot.py *)
Module TornadoPlot.

Local Open Scope Q_scope.

(** A row of the data frame: the label of a sensitivity parameter and the
    LCOW at its low and at its high value. *)
Record row : Type := {
  labels : string;
  lcow_low_values : Q;
  lcow_high_values : Q
}.

(** The calls to matplotlib, with the arguments that place things. *)
Inductive draw : Type :=
| broken_barh (xranges : list (Q * Q)) (yrange : Q * Q)
| text (x y : Q) (s : string)
| axvline (x : Q)
| xlabel (s : string)
| yticks (ticks : list nat) (names : list string)
| ylim (bottom top : Q)
| xticks (ticks : list Q)
| xlim (left right : Q)
| tight_layout
| set_size_inches (w h : Q)
| show.

(** [min(series)] and [max(series)]: they raise on an empty series. *)
Definition min_of (l : list Q) : outcome Q :=
  match l with
  | [] => Raise (External "ValueError")
  | x :: l' => Return (foldl Qmin x l')
  end.
Definition max_of (l : list Q) : outcome Q :=
  match l with
  | [] => Raise (External "ValueError")
  | x :: l' => Return (foldl Qmax x l')
  end.

(** [np.arange(0, stop, 1)] *)
Definition arange_from_zero (stop : Q) : list Q :=
  map (fun i => inject_Z (Z.of_nat i)) (seq 0 (Z.to_nat (Qceiling stop))).

Definition of_nat (n : nat) : Q := inject_Z (Z.of_nat n).

(** [a > b] on floats. *)
Definition Qgt_bool (a b : Q) : bool := negb (Qle_bool a b).

(** Where a drawing call puts things: every bar end, text anchor and
    vertical line is within the horizontal limits, and every bar and text
    within the vertical ones. *)
Definition inside (lo hi x : Q) : Prop := lo <= x /\ x <= hi.
Definition fits (left right bottom top : Q) (d : draw) : Prop :=
  match d with
  | broken_barh xranges (y0, h) =>
      Forall (fun xw => inside left right (fst xw) /\
                        inside left right (fst xw + snd xw)) xranges /\
      inside bottom top y0 /\ inside bottom top (y0 + h)
  | text x y _ => inside left right x /\ inside bottom top y
  | axvline x => inside left right x
  | _ => True
  end.

(** The rows of the script's frame once sorted by range, each under the
    key of its label, with the script's baseline 37.06. *)
Definition rpt1_frame : list row :=
  [ {| labels := "heat_price"; lcow_low_values := 36.21; lcow_high_values := 37.49 |};
    {| labels := "dwi_lcow"; lcow_low_values := 32.86; lcow_high_values := 38.17 |};
    {| labels := "cst_cost_per_total_aperture_area";
       lcow_low_values := 32.88; lcow_high_values := 39.16 |};
    {| labels := "cst_cost_per_storage_capital";
       lcow_low_values := 32.11; lcow_high_values := 39.54 |} ].

Definition no_format : Q -> string := fun _ => ""%string.

Section Plot.
(** [f"{x:0.1f}"] *)
Variable format_1f : Q -> string.

Local Open Scope prog_scope.
Local Abbreviation P := (prog unit draw).

(** [a / b] on Python floats: the values of a series come out of the
    iteration as Python floats, and the baseline is one. *)
Definition divide (a b : Q) : P Q :=
  if Qeq_bool b 0 then raise ZeroDivisionError else ret (a / b).

(** The body of the loop, for the row at position [y]. *)
Definition draw_row (baseline_lcow : Q) (y : nat) (r : row) : P unit :=
  let low_value := lcow_low_values r in
  let high_value := lcow_high_values r in
  let low_width := baseline_lcow - low_value in
  let high_width := high_value - baseline_lcow in
  emit (broken_barh [(low_value, low_width); (baseline_lcow, high_width)]
          (of_nat y - 0.4, 0.8)) ;;
  let offset := 1 in
  let x_high := if Qgt_bool high_value low_value
                then baseline_lcow + high_width + offset
                else baseline_lcow + high_width - offset in
  let x_low := if Qgt_bool high_value low_value
               then baseline_lcow - low_width - offset
               else baseline_lcow - low_width + offset in
  q_low <- divide (baseline_lcow - low_value) baseline_lcow ;;
  let x_low_change := q_low * 100 in
  q_high <- divide (high_value - baseline_lcow) baseline_lcow ;;
  let x_high_change := q_high * 100 in
  emit (text x_high (of_nat y + 0.1) (format_1f high_value)) ;;
  emit (text x_low (of_nat y + 0.1) (format_1f low_value)) ;;
  emit (text x_low (of_nat y - 0.1) ("(-" ++ format_1f x_low_change ++ "%)")) ;;
  emit (text x_high (of_nat y - 0.1) ("(+" ++ format_1f x_high_change ++ "%)")).

(** The loop over [zip(ys, low values, high values)], from position [y]. *)
Fixpoint draw_rows (baseline_lcow : Q) (y : nat) (df : list row) : P unit :=
  match df with
  | [] => ret tt
  | r :: rest => draw_row baseline_lcow y r ;; draw_rows baseline_lcow (S y) rest
  end.

Definition lift {A} (r : outcome A) : P A := fun s => (r, s, []).

Definition tornado_plot (baseline_lcow : Q) (df : list row) (title : string)
  : P unit :=
  let n := List.length df in
  let lows := map lcow_low_values df in
  let highs := map lcow_high_values df in
  draw_rows baseline_lcow 0 df ;;
  emit (axvline baseline_lcow) ;;
  lo <- lift (min_of lows) ;;
  hi <- lift (max_of highs) ;;
  emit (text ((inject_Z (Qfloor lo) + inject_Z (Qceiling hi)) / 2)
             (of_nat n + 0.2) title) ;;
  emit (xlabel "LCOW (\$/m$^3$)") ;;
  emit (yticks (seq 0 n) (map labels df)) ;;
  emit (ylim (-0.5) (of_nat n + 0.5)) ;;
  hi <- lift (max_of highs) ;;
  emit (xticks (arange_from_zero (hi + 3))) ;;
  lo <- lift (min_of lows) ;;
  hi <- lift (max_of highs) ;;
  emit (xlim (inject_Z (Qfloor lo) - 2) (inject_Z (Qceiling hi) + 2)) ;;
  emit tight_layout ;;
  emit (set_size_inches 7 5) ;;
  emit show.

(** What one iteration draws when the baseline is not zero. *)
Definition row_drawing (baseline_lcow : Q) (y : nat) (r : row) : list draw :=
  let low_value := lcow_low_values r in
  let high_value := lcow_high_values r in
  let low_width := baseline_lcow - low_value in
  let high_width := high_value - baseline_lcow in
  let x_high := if Qgt_bool high_value low_value
                then baseline_lcow + high_width + 1
                else baseline_lcow + high_width - 1 in
  let x_low := if Qgt_bool high_value low_value
               then baseline_lcow - low_width - 1
               else baseline_lcow - low_width + 1 in
  [ broken_barh [(low_value, low_width); (baseline_lcow, high_width)]
      (of_nat y - 0.4, 0.8);
    text x_high (of_nat y + 0.1) (format_1f high_value);
    text x_low (of_nat y + 0.1) (format_1f low_value);
    text x_low (of_nat y - 0.1)
      ("(-" ++ format_1f ((baseline_lcow - low_value) / baseline_lcow * 100) ++ "%)");
    text x_high (of_nat y - 0.1)
      ("(+" ++ format_1f ((high_value - baseline_lcow) / baseline_lcow * 100) ++ "%)") ].

(** The limits of the horizontal axis for a frame that starts with [r]. *)
Definition left_limit (r : row) (rest : list row) : Q :=
  inject_Z (Qfloor (foldl Qmin (lcow_low_values r) (map lcow_low_values rest))) - 2.
Definition right_limit (r : row) (rest : list row) : Q :=
  inject_Z (Qceiling (foldl Qmax (lcow_high_values r) (map lcow_high_values rest))) + 2.

(** What is drawn after the bars, for a frame that starts with [r]. *)
Definition frame_of (baseline_lcow : Q) (r : row) (rest : list row) (title : string)
  : list draw :=
  let df := r :: rest in
  let n := List.length df in
  let lo := foldl Qmin (lcow_low_values r) (map lcow_low_values rest) in
  let hi := foldl Qmax (lcow_high_values r) (map lcow_high_values rest) in
  [ axvline baseline_lcow;
    text ((inject_Z (Qfloor lo) + inject_Z (Qceiling hi)) / 2) (of_nat n + 0.2) title;
    xlabel "LCOW (\$/m$^3$)";
    yticks (seq 0 n) (map labels df);
    ylim (-0.5) (of_nat n + 0.5);
    xticks (arange_from_zero (hi + 3));
    xlim (left_limit r rest) (right_limit r rest);
    tight_layout; set_size_inches 7 5; show ].

(** *** Properties of [tornado_plot] *)

Lemma draw_row_run baseline_lcow y r :
  ~ baseline_lcow == 0 ->
  draw_row baseline_lcow y r tt = (Return tt, tt, row_drawing baseline_lcow y r).
Proof.
  intros Hnz. unfold draw_row, divide, bind, emit, ret, raise.
  destruct (Qeq_bool baseline_lcow 0) eqn:E;
    [apply Qeq_bool_iff in E; contradiction|].
  reflexivity.
Qed.

Lemma draw_row_zero baseline_lcow y r :
  baseline_lcow == 0 ->
  draw_row baseline_lcow y r tt
  = (Raise ZeroDivisionError, tt,
     [broken_barh [(lcow_low_values r, baseline_lcow - lcow_low_values r);
                   (baseline_lcow, lcow_high_values r - baseline_lcow)]
        (of_nat y - 0.4, 0.8)]).
Proof.
  intros Hz. unfold draw_row, divide, bind, emit, ret, raise.
  apply Qeq_bool_iff in Hz. rewrite Hz. reflexivity.
Qed.

Lemma draw_rows_run baseline_lcow df : forall y,
  ~ baseline_lcow == 0 ->
  draw_rows baseline_lcow y df tt
  = (Return tt, tt,
     concat (imap (fun i => row_drawing baseline_lcow (y + i)) df)).
Proof.
  induction df as [|r rest IH]; intros y Hnz; [reflexivity|].
  cbn [draw_rows]. unfold bind. rewrite (draw_row_run _ _ _ Hnz).
  rewrite (IH (S y) Hnz). cbn [imap concat]. rewrite Nat.add_0_r.
  do 2 f_equal. f_equal. apply imap_ext. intros i x _. cbn.
  rewrite Nat.add_succ_r. reflexivity.
Qed.

Lemma tornado_plot_run baseline_lcow r rest title :
  ~ baseline_lcow == 0 ->
  tornado_plot baseline_lcow (r :: rest) title tt
  = (Return tt, tt,
     concat (imap (row_drawing baseline_lcow) (r :: rest))
     ++ frame_of baseline_lcow r rest title).
Proof.
  intros Hnz. unfold tornado_plot. unfold bind at 1.
  rewrite (draw_rows_run _ _ 0 Hnz).
  change (fun i => row_drawing baseline_lcow (0 + i)) with (row_drawing baseline_lcow).
  cbn [map min_of max_of]. unfold bind, emit, lift. cbn [app]. reflexivity.
Qed.

Lemma foldl_Qmin_le l : forall x,
  foldl Qmin x l <= x /\ forall y, In y l -> foldl Qmin x l <= y.
Proof.
  induction l as [|z l IH]; intros x.
  - split; [apply Qle_refl | intros y []].
  - cbn [foldl]. destruct (IH (Qmin x z)) as [H1 H2]. split.
    + eapply Qle_trans; [exact H1 | apply Q.le_min_l].
    + intros y [<-|Hy]; [|apply H2; exact Hy].
      eapply Qle_trans; [exact H1 | apply Q.le_min_r].
Qed.

Lemma foldl_Qmax_ge l : forall x,
  x <= foldl Qmax x l /\ forall y, In y l -> y <= foldl Qmax x l.
Proof.
  induction l as [|z l IH]; intros x.
  - split; [apply Qle_refl | intros y []].
  - cbn [foldl]. destruct (IH (Qmax x z)) as [H1 H2]. split.
    + eapply Qle_trans; [apply Q.le_max_l | exact H1].
    + intros y [<-|Hy]; [|apply H2; exact Hy].
      eapply Qle_trans; [apply Q.le_max_r | exact H1].
Qed.

(** Every low value is at least 2 to the right of the left limit, every
    high value at least 2 to the left of the right one. *)
Lemma limits_bound r rest x :
  In x (r :: rest) ->
  left_limit r rest + 2 <= lcow_low_values x /\
  lcow_high_values x + 2 <= right_limit r rest.
Proof.
  intros Hin. unfold left_limit, right_limit.
  destruct (foldl_Qmin_le (map lcow_low_values rest) (lcow_low_values r)) as [Hl1 Hl2].
  destruct (foldl_Qmax_ge (map lcow_high_values rest) (lcow_high_values r)) as [Hh1 Hh2].
  pose proof (Qfloor_le (foldl Qmin (lcow_low_values r) (map lcow_low_values rest))) as Hf.
  pose proof (Qle_ceiling (foldl Qmax (lcow_high_values r) (map lcow_high_values rest))) as Hc.
  destruct Hin as [<-|Hin].
  - split; lra.
  - pose proof (Hl2 _ (in_map lcow_low_values _ _ Hin)).
    pose proof (Hh2 _ (in_map lcow_high_values _ _ Hin)).
    split; lra.
Qed.

Lemma Qgt_bool_true a b : Qgt_bool a b = true <-> b < a.
Proof.
  unfold Qgt_bool. rewrite negb_true_iff. split.
  - intros H. apply Qnot_le_lt. intros Hle. apply Qle_bool_iff in Hle. congruence.
  - intros H. destruct (Qle_bool a b) eqn:E; [|reflexivity].
    apply Qle_bool_iff in E. exfalso. apply (Qlt_not_le _ _ H E).
Qed.

Lemma of_nat_bounds (i n : nat) :
  (i < n)%nat -> 0 <= of_nat i /\ of_nat i + 1 <= of_nat n.
Proof.
  intros H. unfold of_nat. split.
  - change 0 with (inject_Z 0). rewrite <- Zle_Qle. lia.
  - change 1 with (inject_Z 1). rewrite <- inject_Z_plus, <- Zle_Qle. lia.
Qed.

(** X16: the bars of [tornado_plot], for a baseline that is not zero.
    For the row at position [i] the function draws one pair of bars that
    meet at the baseline: the first runs from the low value to the
    baseline, the second from the baseline to the high value, both 0.8
    thick and centred on [i].  The two value labels sit 1 beyond the ends
    of the pair when the high value is the larger, and 1 inside them when
    it is not; the two percentages written under them are the widths of
    the bars over the baseline, times 100. *)
Theorem tornado_plot_bars baseline_lcow df title i r :
  df !! i = Some r ->
  ~ baseline_lcow == 0 ->
  let t := trace_of (tornado_plot baseline_lcow df title tt) in
  exists w_low w_high y0 x_low x_high,
    In (broken_barh [(lcow_low_values r, w_low); (baseline_lcow, w_high)] (y0, 0.8)) t /\
    lcow_low_values r + w_low == baseline_lcow /\
    baseline_lcow + w_high == lcow_high_values r /\
    y0 + 0.4 == of_nat i /\
    In (text x_high (of_nat i + 0.1) (format_1f (lcow_high_values r))) t /\
    In (text x_low (of_nat i + 0.1) (format_1f (lcow_low_values r))) t /\
    In (text x_low (of_nat i - 0.1)
          ("(-" ++ format_1f (w_low / baseline_lcow * 100) ++ "%)")) t /\
    In (text x_high (of_nat i - 0.1)
          ("(+" ++ format_1f (w_high / baseline_lcow * 100) ++ "%)")) t /\
    (lcow_low_values r < lcow_high_values r ->
       x_high == lcow_high_values r + 1 /\ x_low == lcow_low_values r - 1) /\
    (lcow_high_values r <= lcow_low_values r ->
       x_high == lcow_high_values r - 1 /\ x_low == lcow_low_values r + 1).
Proof.
  intros Hi Hnz t. subst t.
  destruct df as [|r0 rest]; [discriminate Hi|].
  rewrite (tornado_plot_run _ _ _ _ Hnz). unfold trace_of. cbn [snd].
  assert (Hrow : forall d, In d (row_drawing baseline_lcow i r) ->
            In d (concat (imap (row_drawing baseline_lcow) (r0 :: rest))
                  ++ frame_of baseline_lcow r0 rest title)).
  { intros d Hd. apply in_or_app. left. apply in_concat.
    exists (row_drawing baseline_lcow i r). split; [|exact Hd].
    apply list_elem_of_In. apply elem_of_lookup_imap. exists i, r.
    split; [reflexivity | exact Hi]. }
  eexists _, _, _, _, _.
  split; [apply Hrow; left; reflexivity|].
  split; [ring|]. split; [ring|]. split; [ring|].
  split; [apply Hrow; right; left; reflexivity|].
  split; [apply Hrow; right; right; left; reflexivity|].
  split; [apply Hrow; right; right; right; left; reflexivity|].
  split; [apply Hrow; right; right; right; right; left; reflexivity|].
  split.
  - intros Hlt. apply Qgt_bool_true in Hlt. rewrite Hlt. split; ring.
  - intros Hle. destruct (Qgt_bool (lcow_high_values r) (lcow_low_values r)) eqn:E.
    + apply Qgt_bool_true in E. exfalso. apply (Qlt_not_le _ _ E Hle).
    + split; ring.
Qed.

(** X17: nothing is drawn outside the axes.  For a baseline that is not
    zero and a frame that is not empty and whose rows have the baseline
    between their low and their high value, [tornado_plot] returns, sets
    the horizontal axis from floor(least low) - 2 to ceil(greatest high)
    + 2 and the vertical one from -0.5 to n + 0.5 for [n] rows, and every
    bar, every value and percentage label, the title and the baseline
    line lie within these limits. *)
Theorem tornado_plot_within_limits baseline_lcow r rest title :
  ~ baseline_lcow == 0 ->
  (forall x, In x (r :: rest) ->
     lcow_low_values x <= baseline_lcow /\ baseline_lcow <= lcow_high_values x) ->
  let run := tornado_plot baseline_lcow (r :: rest) title tt in
  let n := List.length (r :: rest) in
  result_of run = Return tt /\
  In (xlim (left_limit r rest) (right_limit r rest)) (trace_of run) /\
  In (ylim (-0.5) (of_nat n + 0.5)) (trace_of run) /\
  Forall (fits (left_limit r rest) (right_limit r rest) (-0.5) (of_nat n + 0.5))
    (trace_of run).
Proof.
  intros Hnz Hrows. cbv zeta. rewrite (tornado_plot_run _ _ _ _ Hnz).
  unfold result_of, trace_of. cbn [fst snd].
  split; [reflexivity|].
  split; [apply in_or_app; right; unfold frame_of; cbn; tauto|].
  split; [apply in_or_app; right; unfold frame_of; cbn; tauto|].
  apply Forall_app. split.
  - apply List.Forall_forall. intros d Hd.
    apply in_concat in Hd as (ds & Hds & Hd).
    apply list_elem_of_In in Hds.
    apply elem_of_lookup_imap in Hds as (i & x & -> & Hi).
    assert (Hin : In x (r :: rest))
      by (apply list_elem_of_In; eapply list_elem_of_lookup_2; exact Hi).
    destruct (Hrows x Hin) as [Hlo Hhi].
    destruct (limits_bound r rest x Hin) as [Hl Hr].
    assert (Hlt : (i < List.length (r :: rest))%nat)
      by (apply lookup_lt_is_Some; eexists; exact Hi).
    destruct (of_nat_bounds _ _ Hlt) as [Hy0 Hy1].
    unfold row_drawing in Hd. cbv zeta in Hd.
    destruct (Qgt_bool (lcow_high_values x) (lcow_low_values x));
      repeat (destruct Hd as [<-|Hd]; [unfold fits, inside;
        repeat first [apply Forall_cons; split | apply Forall_nil | split];
        cbn [fst snd]; try lra; trivial |]);
      destruct Hd.
  - destruct (Hrows r (or_introl eq_refl)) as [Hlo Hhi].
    destruct (limits_bound r rest r (or_introl eq_refl)) as [Hl Hr].
    pose proof (limits_bound r rest) as Hb.
    unfold frame_of. cbv zeta.
    assert (Hn : 1 <= of_nat (List.length (r :: rest))).
    { unfold of_nat. change 1 with (inject_Z 1). rewrite <- Zle_Qle.
      cbn [List.length]. lia. }
    unfold left_limit, right_limit in *.
    set (lo := inject_Z (Qfloor (foldl Qmin (lcow_low_values r)
                                   (map lcow_low_values rest)))) in *.
    set (hi := inject_Z (Qceiling (foldl Qmax (lcow_high_values r)
                                     (map lcow_high_values rest)))) in *.
    repeat (apply Forall_cons; split); try apply Forall_nil;
      unfold fits, inside; trivial; try (repeat split; lra).
    assert (Hmid : (lo + hi) / 2 == lo * (1 # 2) + hi * (1 # 2)) by field.
    rewrite Hmid. repeat split; lra.
Qed.

(** X18: when [tornado_plot] fails.  It returns exactly when the frame
    has a row and the baseline is not zero.  On an empty frame it draws
    the baseline line and then raises the [ValueError] of [min] on an
    empty series, setting no axis and showing nothing.  With a zero
    baseline and a frame that has a row it draws the bars of the first
    row and raises [ZeroDivisionError] at the first percentage: no label,
    no further row, no axis. *)
Theorem tornado_plot_failures baseline_lcow df title :
  (raised (result_of (tornado_plot baseline_lcow df title tt)) = true
     <-> df = [] \/ baseline_lcow == 0) /\
  tornado_plot baseline_lcow [] title tt
  = (Raise (External "ValueError"), tt, [axvline baseline_lcow]) /\
  (forall r rest, df = r :: rest -> baseline_lcow == 0 ->
     tornado_plot baseline_lcow df title tt
     = (Raise ZeroDivisionError, tt,
        [broken_barh [(lcow_low_values r, baseline_lcow - lcow_low_values r);
                      (baseline_lcow, lcow_high_values r - baseline_lcow)]
           (of_nat 0 - 0.4, 0.8)])).
Proof.
  assert (Hzero : forall r rest, baseline_lcow == 0 ->
            tornado_plot baseline_lcow (r :: rest) title tt
            = (Raise ZeroDivisionError, tt,
               [broken_barh [(lcow_low_values r, baseline_lcow - lcow_low_values r);
                             (baseline_lcow, lcow_high_values r - baseline_lcow)]
                  (of_nat 0 - 0.4, 0.8)])).
  { intros r rest Hz. unfold tornado_plot. cbn [draw_rows]. unfold bind.
    rewrite (draw_row_zero _ _ _ Hz). reflexivity. }
  split; [|split; [reflexivity|]].
  - destruct df as [|r rest].
    + split; [intros _; left; reflexivity | reflexivity].
    + destruct (Qeq_bool baseline_lcow 0) eqn:E.
      * apply Qeq_bool_iff in E. rewrite (Hzero r rest E).
        split; [intros _; right; exact E | reflexivity].
      * assert (Hnz : ~ baseline_lcow == 0).
        { intros Hz. apply Qeq_bool_iff in Hz. congruence. }
        rewrite (tornado_plot_run _ _ _ _ Hnz). cbn.
        split; [discriminate | intros [H|H]; [discriminate H | contradiction]].
  - intros r rest -> Hz. apply Hzero. exact Hz.
Qed.

End Plot.

Lemma tornado_plot_bars_witness :
  exists w_low w_high : Q, 32.86 + w_low == 37.06 /\ 37.06 + w_high == 38.17.
Proof.
  destruct (tornado_plot_bars no_format 37.06 rpt1_frame "RPT" 1
              {| labels := "dwi_lcow"; lcow_low_values := 32.86;
                 lcow_high_values := 38.17 |} eq_refl ltac:(discriminate))
    as (w_low & w_high & _ & _ & _ & _ & H1 & H2 & _).
  exists w_low, w_high. split; [exact H1 | exact H2].
Defined.

Lemma tornado_plot_within_limits_witness :
  In (xlim 30 42) (trace_of (tornado_plot no_format 37.06 rpt1_frame "RPT" tt)).
Proof.
  destruct (tornado_plot_within_limits no_format 37.06
              {| labels := "heat_price"; lcow_low_values := 36.21;
                 lcow_high_values := 37.49 |}
              (tl rpt1_frame) "RPT") as (_ & H & _).
  - discriminate.
  - intros x Hx. cbn in Hx.
    repeat (destruct Hx as [<-|Hx]; [split; cbv; discriminate|]). destruct Hx.
  - exact H.
Defined.

End TornadoPlot.
